(** * A shallow embedding of [video_player.py] and [video_playlist.py]

    The Python [VideoPlayer] keeps a video library, a dictionary of
    playlists, the video being played and a paused flag.  Every method
    mutates that state and prints lines of text.  Here a method is a
    function from the state (and its arguments) to the new state and the
    list of printed lines.

    Strings are Rocq strings (sequences of 8-bit characters); [str.upper]
    is modelled on the ASCII letters, every other character being left
    as it is. *)

From Stdlib Require Import String Ascii List Bool Arith ZArith Lia.
From Stdlib Require Import DecimalString Sorted Permutation.
From stdpp Require Import base option gmap strings fin_maps.
Import ListNotations.

Local Open Scope string_scope.
Local Open Scope list_scope.

(* stdpp turns [simpl] off on string concatenation; the proofs below
   compute with it. *)
#[local] Arguments String.append !s1 s2 : simpl nomatch.

(** ** Strings as Python uses them *)

Module Str.

(** [c.upper()] for one character: the letters a-z lose 32. *)
Definition upper_ascii (c : ascii) : ascii :=
  let n := nat_of_ascii c in
  if (97 <=? n)%nat && (n <=? 122)%nat then ascii_of_nat (n - 32) else c.

(** [s.upper()] *)
Fixpoint upper (s : string) : string :=
  match s with
  | EmptyString => EmptyString
  | String c s' => String (upper_ascii c) (upper s')
  end.

(** [s.startswith(t)] *)
Fixpoint starts_with (t s : string) : bool :=
  match t, s with
  | EmptyString, _ => true
  | String _ _, EmptyString => false
  | String a t', String b s' => Ascii.eqb a b && starts_with t' s'
  end.

(** [t in s] on two strings: [t] occurs in [s] as a substring. *)
Fixpoint contains (t s : string) : bool :=
  starts_with t s ||
  match s with
  | EmptyString => false
  | String _ s' => contains t s'
  end.

(** [sep.join(l)] *)
Fixpoint join (sep : string) (l : list string) : string :=
  match l with
  | [] => EmptyString
  | [x] => x
  | x :: (_ :: _) as rest => x +:+ sep +:+ join sep rest
  end.

(** [str(n)] for a natural number. *)
Definition of_nat (n : nat) : string :=
  NilEmpty.string_of_uint (Nat.to_uint n).

(** [x or 'Not supplied']: the empty string is falsy. *)
Definition or_not_supplied (x : string) : string :=
  match x with
  | EmptyString => "Not supplied"
  | String _ _ => x
  end.

(** Does the character occur in the string? *)
Fixpoint has_char (c : ascii) (s : string) : bool :=
  match s with
  | EmptyString => false
  | String a s' => Ascii.eqb a c || has_char c s'
  end.

(** Two strings that differ in letter case only: same length, and at
    each position the same character up to the case of a letter. *)
Fixpoint same_up_to_case (m n : string) : Prop :=
  match m, n with
  | EmptyString, EmptyString => True
  | String a m', String b n' =>
      upper_ascii a = upper_ascii b /\ same_up_to_case m' n'
  | _, _ => False
  end.

(** [t] occurs in [s] when case is ignored: some substring of [s] is
    [t] up to the case of its letters. *)
Definition ci_substring (t s : string) : Prop :=
  exists pre mid post,
    s = pre +:+ mid +:+ post /\ same_up_to_case mid t.

End Str.

(** ** The data model *)

(** Modelled from the spec: the [Video] class ([video.py]) is not among
    the sources.  A video has an id, a title, a sequence of tags and a
    flag reason, [None] when the video is not flagged.  Python's
    [video.flag_reason = ""] is [Some ""] here: flagged, no reason given. *)
Record Video := mkVideo {
  title : string;
  video_id : string;
  tags : list string;
  flag_reason : option string
}.

(** Modelled from the spec: the [VideoLibrary] class ([video_library.py])
    is not among the sources.  Its [_videos] dictionary maps a video id to
    the one [Video] object with that id; a dictionary keeps its entries in
    insertion order, so the library is the list of its videos in that
    order, and an entry is found by its id. *)
Definition VideoLibrary := list Video.

Definition get_all_videos (lib : VideoLibrary) : list Video := lib.

Definition get_video (lib : VideoLibrary) (id : string) : option Video :=
  List.find (fun v => String.eqb (video_id v) id) lib.

(** [video_id in lib._videos] *)
Definition has_video (lib : VideoLibrary) (id : string) : bool :=
  match get_video lib id with Some _ => true | None => false end.

(** [lib._videos[id]._flag_reason = r]: the object stored under [id] is
    updated in place; every holder of a reference to it sees the change. *)
Fixpoint set_flag_reason (lib : VideoLibrary) (id : string)
    (r : option string) : VideoLibrary :=
  match lib with
  | [] => []
  | v :: vs =>
      if String.eqb (video_id v) id
      then mkVideo (title v) (video_id v) (tags v) r :: vs
      else v :: set_flag_reason vs id r
  end.

(** [class Playlist(VideoLibrary)]: a name and a dictionary [_videos] from
    video ids to references to the library's [Video] objects.  The
    dictionary is the list of its keys in insertion order; the object
    behind a key is looked up in the library. *)
Record Playlist := mkPlaylist {
  name : string;
  _videos : list string
}.

(** [Playlist(playlist_name)] *)
Definition new_playlist (playlist_name : string) : Playlist :=
  mkPlaylist playlist_name [].

(** [playlist.get_video(id)] tells whether the key is present. *)
Definition playlist_has (pl : Playlist) (id : string) : bool :=
  existsb (String.eqb id) (_videos pl).

(** [playlist._videos[id] = video] for a key that may be present: a
    present key keeps its place, a new key goes to the end. *)
Definition playlist_set (pl : Playlist) (id : string) : Playlist :=
  if playlist_has pl id then pl
  else mkPlaylist (name pl) (_videos pl ++ [id]).

(** [del playlist._videos[id]] *)
Definition playlist_del (pl : Playlist) (id : string) : Playlist :=
  mkPlaylist (name pl) (List.filter (fun k => negb (String.eqb id k)) (_videos pl)).

(** [playlist._videos = {}] *)
Definition playlist_clear (pl : Playlist) : Playlist :=
  mkPlaylist (name pl) [].

(** The state of a [VideoPlayer].  [_playing_video] is a reference to a
    [Video] object of the library, kept as the id of that object. *)
Record VideoPlayer := mkPlayer {
  _video_library : VideoLibrary;
  _playlists : gmap string Playlist;
  _playing_video : option string;
  _is_video_paused : bool
}.

(** [VideoPlayer()] over a loaded library. *)
Definition init (lib : VideoLibrary) : VideoPlayer :=
  mkPlayer lib ∅ None false.

Definition set_library (self : VideoPlayer) (lib : VideoLibrary) :=
  mkPlayer lib (_playlists self) (_playing_video self) (_is_video_paused self).
Definition set_playlists (self : VideoPlayer) (pls : gmap string Playlist) :=
  mkPlayer (_video_library self) pls (_playing_video self) (_is_video_paused self).
Definition set_playing (self : VideoPlayer) (p : option string) :=
  mkPlayer (_video_library self) (_playlists self) p (_is_video_paused self).
Definition set_paused (self : VideoPlayer) (b : bool) :=
  mkPlayer (_video_library self) (_playlists self) (_playing_video self) b.

(** The title of the video an id refers to. *)
Definition title_of (lib : VideoLibrary) (id : string) : string :=
  match get_video lib id with
  | Some v => title v
  | None => ""
  end.

(** ** The methods of [VideoPlayer]

    Each returns the new state and the lines printed, in order. *)

Definition result := (VideoPlayer * list string)%type.

(** [" ".join(video.tags)] *)
Definition tags_text (v : Video) : string := Str.join " " (tags v).

(** The suffix that [show_all_videos] and [show_playlist] print for a
    flagged video. *)
Definition flag_msg (v : Video) : string :=
  match flag_reason v with
  | Some r => "- FLAGGED (reason: " +:+ Str.or_not_supplied r +:+ ")"
  | None => ""
  end.

Definition video_line (v : Video) : string :=
  title v +:+ " (" +:+ video_id v +:+ ") [" +:+ tags_text v +:+ "]".

(** [sorted(l, key=...)]: a stable sort on a string key. *)
Section Sorted.
Context {A : Type} (key : A -> string).

Fixpoint insert_sorted (x : A) (l : list A) : list A :=
  match l with
  | [] => [x]
  | y :: l' =>
      if String.leb (key x) (key y) then x :: l
      else y :: insert_sorted x l'
  end.

Definition sorted (l : list A) : list A :=
  fold_right insert_sorted [] l.
End Sorted.

Definition number_of_videos (self : VideoPlayer) : result :=
  let num_videos := length (get_all_videos (_video_library self)) in
  (self, [Str.of_nat num_videos +:+ " videos in the library"]).

Definition show_all_videos (self : VideoPlayer) : result :=
  let videos := get_all_videos (_video_library self) in
  let sorted_videos := sorted title videos in
  (self,
   "Here's a list of all available videos:"
     :: map (fun video => video_line video +:+ " " +:+ flag_msg video)
            sorted_videos).

Definition play_video (self : VideoPlayer) (id : string) : result :=
  let self := set_paused self false in
  match get_video (_video_library self) id with
  | None => (self, ["Cannot play video: Video does not exist"])
  | Some video =>
      match flag_reason video with
      | Some r =>
          (self,
           ["Cannot play video: Video is currently flagged (reason: "
              +:+ Str.or_not_supplied r +:+ ")"])
      | None =>
          match _playing_video self with
          | None =>
              (set_playing self (Some (video_id video)),
               ["Playing video: " +:+ title video])
          | Some old =>
              (set_playing self (Some (video_id video)),
               ["Stopping video: " +:+ title_of (_video_library self) old;
                "Playing video: " +:+ title video])
          end
      end
  end.

Definition stop_video (self : VideoPlayer) : result :=
  match _playing_video self with
  | None => (self, ["Cannot stop video: No video is currently playing"])
  | Some video =>
      (set_playing self None,
       ["Stopping video: " +:+ title_of (_video_library self) video])
  end.

(** The videos that are not flagged, in library order. *)
Definition unflagged_videos (lib : VideoLibrary) : list Video :=
  List.filter (fun vid => match flag_reason vid with None => true | Some _ => false end)
         (get_all_videos lib).

(** [random.choice] is the one source of randomness: [rnd] stands for the
    draw, and selects the element at position [rnd mod len]. *)
Definition play_random_video (self : VideoPlayer) (rnd : nat) : result :=
  let unflagged := unflagged_videos (_video_library self) in
  match nth_error unflagged (rnd mod length unflagged) with
  | None => (self, ["No videos available"])
  | Some rand_video => play_video self (video_id rand_video)
  end.

Definition pause_video (self : VideoPlayer) : result :=
  match _playing_video self with
  | None => (self, ["Cannot pause video: No video is currently playing"])
  | Some video =>
      if _is_video_paused self
      then (self, ["Video already paused: " +:+ title_of (_video_library self) video])
      else (set_paused self true,
            ["Pausing video: " +:+ title_of (_video_library self) video])
  end.

Definition continue_video (self : VideoPlayer) : result :=
  match _playing_video self with
  | None => (self, ["Cannot continue video: No video is currently playing"])
  | Some video =>
      if _is_video_paused self
      then (set_paused self false,
            ["Continuing video: " +:+ title_of (_video_library self) video])
      else (self, ["Cannot continue video: Video is not paused"])
  end.

Definition show_playing (self : VideoPlayer) : result :=
  match _playing_video self with
  | None => (self, ["No video is currently playing"])
  | Some id =>
      match get_video (_video_library self) id with
      | None => (self, [])
      | Some video =>
          let play_status := if _is_video_paused self then "- PAUSED" else "" in
          (self, ["Currently playing: " +:+ video_line video +:+ " " +:+ play_status])
      end
  end.

Definition create_playlist (self : VideoPlayer) (playlist_name : string) : result :=
  let playlist_id := Str.upper playlist_name in
  match _playlists self !! playlist_id with
  | Some _ =>
      (self, ["Cannot create playlist: A playlist with the same name already exists"])
  | None =>
      (set_playlists self (<[playlist_id := new_playlist playlist_name]> (_playlists self)),
       ["Successfully created new playlist: " +:+ playlist_name])
  end.

Definition add_to_playlist (self : VideoPlayer) (playlist_name id : string) : result :=
  let video := get_video (_video_library self) id in
  let playlist_id := Str.upper playlist_name in
  match _playlists self !! playlist_id with
  | None =>
      (self, ["Cannot add video to " +:+ playlist_name +:+ ": Playlist does not exist"])
  | Some playlist =>
      match video with
      | None =>
          (self, ["Cannot add video to " +:+ playlist_name +:+ ": Video does not exist"])
      | Some video =>
          match flag_reason video with
          | Some r =>
              (self,
               ["Cannot add video to " +:+ playlist_name
                  +:+ ": Video is currently flagged (reason: "
                  +:+ Str.or_not_supplied r +:+ ")"])
          | None =>
              if playlist_has playlist (video_id video)
              then (self, ["Cannot add video to " +:+ playlist_name +:+ ": Video already added"])
              else
                (set_playlists self
                   (<[playlist_id := playlist_set playlist id]> (_playlists self)),
                 ["Added video to " +:+ playlist_name +:+ ": " +:+ title video])
          end
      end
  end.

(** [playlist.get_all_videos()]: the objects behind the keys, in order. *)
Definition playlist_videos (lib : VideoLibrary) (pl : Playlist) : list Video :=
  omap (get_video lib) (_videos pl).

Definition show_all_playlists (self : VideoPlayer) : result :=
  let playlists := snd <$> map_to_list (_playlists self) in
  match playlists with
  | [] => (self, ["No playlists exist yet"])
  | _ :: _ =>
      let sorted_names := sorted name playlists in
      (self,
       "Showing all playlists:"
         :: map (fun playlist =>
                   let playlist_size :=
                     length (playlist_videos (_video_library self) playlist) in
                   let plural_suffix :=
                     if Nat.eqb playlist_size 1 then "" else "s" in
                   "  " +:+ name playlist +:+ " (" +:+ Str.of_nat playlist_size
                     +:+ " video" +:+ plural_suffix +:+ ")")
                sorted_names)
  end.

Definition show_playlist (self : VideoPlayer) (playlist_name : string) : result :=
  let playlist_id := Str.upper playlist_name in
  match _playlists self !! playlist_id with
  | None =>
      (self, ["Cannot show playlist " +:+ playlist_name +:+ ": Playlist does not exist"])
  | Some playlist =>
      let videos := playlist_videos (_video_library self) playlist in
      (self,
       ("Showing playlist: " +:+ playlist_name)
         :: match videos with
            | [] => ["No videos here yet"]
            | _ :: _ =>
                map (fun video => "  " +:+ video_line video +:+ " " +:+ flag_msg video)
                    videos
            end)
  end.

Definition remove_from_playlist (self : VideoPlayer) (playlist_name id : string)
    : result :=
  let playlist_id := Str.upper playlist_name in
  match _playlists self !! playlist_id with
  | None =>
      (self, ["Cannot remove video from " +:+ playlist_name +:+ ": Playlist does not exist"])
  | Some playlist =>
      if negb (has_video (_video_library self) id)
      then (self, ["Cannot remove video from " +:+ playlist_name +:+ ": Video does not exist"])
      else if negb (playlist_has playlist id)
      then (self, ["Cannot remove video from " +:+ playlist_name +:+ ": Video is not in playlist"])
      else
        (set_playlists self
           (<[playlist_id := playlist_del playlist id]> (_playlists self)),
         ["Removed video from " +:+ playlist_name +:+ ": "
            +:+ title_of (_video_library self) id])
  end.

Definition clear_playlist (self : VideoPlayer) (playlist_name : string) : result :=
  let playlist_id := Str.upper playlist_name in
  match _playlists self !! playlist_id with
  | None =>
      (self, ["Cannot clear playlist " +:+ playlist_name +:+ ": Playlist does not exist"])
  | Some playlist =>
      (set_playlists self
         (<[playlist_id := playlist_clear playlist]> (_playlists self)),
       ["Successfully removed all videos from " +:+ playlist_name])
  end.

Definition delete_playlist (self : VideoPlayer) (playlist_name : string) : result :=
  let playlist_id := Str.upper playlist_name in
  match _playlists self !! playlist_id with
  | None =>
      (self, ["Cannot delete playlist " +:+ playlist_name +:+ ": Playlist does not exist"])
  | Some _ =>
      (set_playlists self (delete playlist_id (_playlists self)),
       ["Deleted playlist: " +:+ playlist_name])
  end.

(** The numbered lines of [display_matched_videos], [i] being the index
    of the first video of the list. *)
Fixpoint numbered_lines (i : nat) (videos : list Video) : list string :=
  match videos with
  | [] => []
  | video :: rest =>
      ("  " +:+ Str.of_nat (i + 1) +:+ ") " +:+ video_line video)
        :: numbered_lines (S i) rest
  end.

(** [answer] is what [int(input())] gives: [None] when the line read is
    not a number ([ValueError]). *)
Definition display_matched_videos (self : VideoPlayer) (videos : list Video)
    (answer : option Z) : result :=
  let lines :=
    numbered_lines 0 videos ++
    ["Would you like to play any of the above? If yes, specify the number of the video.";
     "If your answer is not a valid number, we will assume it's a no."] in
  match answer with
  | None => (self, lines)
  | Some number =>
      if ((1 <=? number)%Z && (number <? Z.of_nat (length videos) + 1)%Z)%bool
      then
        match nth_error videos (Z.to_nat (number - 1)) with
        | Some video_to_play =>
            let '(self', out) := play_video self (video_id video_to_play) in
            (self', lines ++ out)
        | None => (self, lines)
        end
      else (self, lines)
  end.

Definition is_unflagged (video : Video) : bool :=
  match flag_reason video with None => true | Some _ => false end.

(** The list [matched_videos] that [search_videos] builds. *)
Definition matched_by_title (lib : VideoLibrary) (search_term : string) : list Video :=
  List.filter
    (fun video =>
       Str.contains (Str.upper search_term) (Str.upper (title video))
       && is_unflagged video)
    (get_all_videos lib).

Definition search_videos (self : VideoPlayer) (search_term : string)
    (answer : option Z) : result :=
  let matched_videos := matched_by_title (_video_library self) search_term in
  match matched_videos with
  | _ :: _ =>
      let '(self', out) := display_matched_videos self matched_videos answer in
      (self', ("Here are the results for " +:+ search_term +:+ ":") :: out)
  | [] => (self, ["No search results for " +:+ search_term])
  end.

(** The list [matched_videos] that [search_videos_tag] builds. *)
Definition matched_by_tag (lib : VideoLibrary) (video_tag : string) : list Video :=
  List.filter
    (fun video =>
       Str.contains (Str.upper video_tag) (Str.upper (tags_text video))
       && is_unflagged video)
    (get_all_videos lib).

Definition search_videos_tag (self : VideoPlayer) (video_tag : string)
    (answer : option Z) : result :=
  let matched_videos := matched_by_tag (_video_library self) video_tag in
  match matched_videos with
  | _ :: _ =>
      let '(self', out) := display_matched_videos self matched_videos answer in
      (self', ("Here are the results for " +:+ video_tag +:+ ":") :: out)
  | [] => (self, ["No search results for " +:+ video_tag])
  end.

(** [self._playing_video == video]: the same object of the library. *)
Definition is_playing (self : VideoPlayer) (video : Video) : bool :=
  match _playing_video self with
  | Some p => String.eqb p (video_id video)
  | None => false
  end.

Definition flag_video (self : VideoPlayer) (id : string) (reason : string) : result :=
  match get_video (_video_library self) id with
  | None => (self, ["Cannot flag video: Video does not exist"])
  | Some video =>
      match flag_reason video with
      | Some _ => (self, ["Cannot flag video: Video is already flagged"])
      | None =>
          let '(self', out) :=
            if is_playing self video then stop_video self else (self, []) in
          (set_library self' (set_flag_reason (_video_library self') id (Some reason)),
           out ++ ["Successfully flagged video: " +:+ title video +:+ " (reason: "
                     +:+ Str.or_not_supplied reason +:+ ")"])
      end
  end.

(** [flag_video(video_id)]: the reason defaults to the empty string. *)
Definition flag_video_default (self : VideoPlayer) (id : string) : result :=
  flag_video self id "".

Definition allow_video (self : VideoPlayer) (id : string) : result :=
  match get_video (_video_library self) id with
  | None => (self, ["Cannot remove flag from video: Video does not exist"])
  | Some video =>
      match flag_reason video with
      | None => (self, ["Cannot remove flag from video: Video is not flagged"])
      | Some _ =>
          (set_library self (set_flag_reason (_video_library self) id None),
           ["Successfully removed flag from video: " +:+ title video])
      end
  end.

(** ** Sequences of calls *)

Inductive command :=
| CNumberOfVideos
| CAllVideos
| CPlay (id : string)
| CStop
| CPlayRandom (rnd : nat)
| CPause
| CContinue
| CPlaying
| CCreatePlaylist (playlist_name : string)
| CAddToPlaylist (playlist_name id : string)
| CAllPlaylists
| CPlaylist (playlist_name : string)
| CRemoveFromPlaylist (playlist_name id : string)
| CClearPlaylist (playlist_name : string)
| CDeletePlaylist (playlist_name : string)
| CSearch (search_term : string) (answer : option Z)
| CSearchTag (video_tag : string) (answer : option Z)
| CFlag (id reason : string)
| CFlagDefault (id : string)
| CAllow (id : string).

Definition call (self : VideoPlayer) (c : command) : result :=
  match c with
  | CNumberOfVideos => number_of_videos self
  | CAllVideos => show_all_videos self
  | CPlay id => play_video self id
  | CStop => stop_video self
  | CPlayRandom rnd => play_random_video self rnd
  | CPause => pause_video self
  | CContinue => continue_video self
  | CPlaying => show_playing self
  | CCreatePlaylist n => create_playlist self n
  | CAddToPlaylist n id => add_to_playlist self n id
  | CAllPlaylists => show_all_playlists self
  | CPlaylist n => show_playlist self n
  | CRemoveFromPlaylist n id => remove_from_playlist self n id
  | CClearPlaylist n => clear_playlist self n
  | CDeletePlaylist n => delete_playlist self n
  | CSearch t a => search_videos self t a
  | CSearchTag t a => search_videos_tag self t a
  | CFlag id r => flag_video self id r
  | CFlagDefault id => flag_video_default self id
  | CAllow id => allow_video self id
  end.

(** The state after a sequence of calls. *)
Definition run (self : VideoPlayer) (cs : list command) : VideoPlayer :=
  fold_left (fun s c => fst (call s c)) cs self.

(** The states a player over the library [lib] can be in. *)
Inductive reachable (lib : VideoLibrary) : VideoPlayer -> Prop :=
| reachable_init : reachable lib (init lib)
| reachable_call self c :
    reachable lib self -> reachable lib (fst (call self c)).

(** ** Notions the properties are stated with *)

(** The video [v] with its flag reason replaced. *)
Definition with_flag (v : Video) (r : option string) : Video :=
  mkVideo (title v) (video_id v) (tags v) r.

(** The playing video, if there is one, is in the library and is not
    flagged. *)
Definition playing_unflagged (self : VideoPlayer) : Prop :=
  forall id, _playing_video self = Some id ->
    exists v, get_video (_video_library self) id = Some v /\ flag_reason v = None.

(** The prompt that follows a list of search results. *)
Definition search_prompt : list string :=
  ["Would you like to play any of the above? If yes, specify the number of the video.";
   "If your answer is not a valid number, we will assume it's a no."].

(** What a search prints for the list [matched] when the answer is not a
    number, so that nothing is played. *)
Definition search_output (query : string) (matched : list Video) : list string :=
  match matched with
  | [] => ["No search results for " +:+ query]
  | _ :: _ =>
      ("Here are the results for " +:+ query +:+ ":")
        :: numbered_lines 0 matched ++ search_prompt
  end.

(** The library of the examples: two videos that can be played, one of
    them without a tag, and one video that is flagged. *)
Definition demo_library : VideoLibrary :=
  [ mkVideo "Amy" "v1" ["#fun"] None;
    mkVideo "Bob" "v2" ["#fun"; "#sad"] (Some "spoiler");
    mkVideo "Cat" "v3" [] None ].

(** What stays of a video when its flag changes. *)
Definition static_part (v : Video) : string * string * list string :=
  (title v, video_id v, tags v).

(** A playlist stored under the key [k]: the key is its name in upper
    case, no id is in it twice, and every id in it is one of the library. *)
Definition playlist_ok (lib : VideoLibrary) (k : string) (pl : Playlist) : Prop :=
  Str.upper (name pl) = k /\
  List.NoDup (_videos pl) /\
  forall id, In id (_videos pl) -> has_video lib id = true.

Definition playlists_ok (self : VideoPlayer) : Prop :=
  forall k pl, _playlists self !! k = Some pl ->
    playlist_ok (_video_library self) k pl.

(** The calls that write to the library, to the playlists, and to the
    playing video or the paused flag. *)
Definition writes_library (c : command) : bool :=
  match c with
  | CFlag _ _ | CFlagDefault _ | CAllow _ => true
  | _ => false
  end.

Definition writes_playlists (c : command) : bool :=
  match c with
  | CCreatePlaylist _ | CAddToPlaylist _ _ | CRemoveFromPlaylist _ _
  | CClearPlaylist _ | CDeletePlaylist _ => true
  | _ => false
  end.

Definition writes_playback (c : command) : bool :=
  match c with
  | CPlay _ | CStop | CPlayRandom _ | CPause | CContinue
  | CSearch _ _ | CSearchTag _ _ | CFlag _ _ | CFlagDefault _ => true
  | _ => false
  end.

(** The order of titles and names that [sorted] sorts by. *)
Definition key_le {A} (key : A -> string) (x y : A) : Prop :=
  String.leb (key x) (key y) = true.

(** The position, from 0, that an answer to the search prompt picks in a
    list of [n] results: the answer is a number from 1 to [n]. *)
Definition picked (answer : option Z) (n : nat) : option nat :=
  match answer with
  | Some number =>
      if ((1 <=? number)%Z && (number <=? Z.of_nat n)%Z)%bool
      then Some (Z.to_nat number - 1)
      else None
  | None => None
  end.

(** The line of [show_all_playlists] for a playlist of [n] videos. *)
Definition playlist_line (playlist_name : string) (n : nat) : string :=
  "  " +:+ playlist_name +:+ " (" +:+ Str.of_nat n +:+ " video"
    +:+ (if Nat.eqb n 1 then "" else "s") +:+ ")".

(** * Properties *)

(** ** Strings *)

Module StrFacts.
Import Str.

Lemma app_empty_r (s : string) : s +:+ "" = s.
Proof. induction s as [|c s IH]; simpl; [reflexivity | now rewrite IH]. Qed.

Lemma app_assoc (a b c : string) : (a +:+ b) +:+ c = a +:+ b +:+ c.
Proof. induction a as [|x a IH]; simpl; [reflexivity | now rewrite IH]. Qed.

Lemma upper_app (a b : string) : upper (a +:+ b) = upper a +:+ upper b.
Proof. induction a as [|x a IH]; simpl; [reflexivity | now rewrite IH]. Qed.

Lemma starts_with_spec (t s : string) :
  starts_with t s = true <-> exists post, s = t +:+ post.
Proof.
  revert s. induction t as [|a t IH]; intros s; simpl.
  - split; [intros _; now exists s | reflexivity].
  - destruct s as [|b s].
    + split; [discriminate | intros [post H]; discriminate].
    + rewrite andb_true_iff, Ascii.eqb_eq, IH. split.
      * intros [-> [post ->]]. now exists post.
      * intros [post H]. injection H as -> ->. split; [reflexivity | now exists post].
Qed.

Lemma contains_cons (t : string) (c : ascii) (s : string) :
  contains t (String c s) = starts_with t (String c s) || contains t s.
Proof. reflexivity. Qed.

Lemma contains_spec (t s : string) :
  contains t s = true <-> exists pre post, s = pre +:+ t +:+ post.
Proof.
  induction s as [|c s IH].
  - simpl. rewrite orb_false_r, starts_with_spec. split.
    + intros [post H]. now exists "", post.
    + intros [pre [post H]]. destruct pre; [now exists post | discriminate].
  - rewrite contains_cons, orb_true_iff, IH, starts_with_spec. split.
    + intros [[post H] | [pre [post H]]].
      * now exists "", post.
      * exists (String c pre), post. simpl. now rewrite H.
    + intros [pre [post H]]. destruct pre as [|x pre]; simpl in H.
      * left. now exists post.
      * right. injection H as _ H. now exists pre, post.
Qed.

Lemma same_up_to_case_upper (m n : string) :
  same_up_to_case m n <-> upper m = upper n.
Proof.
  revert n. induction m as [|a m IH]; intros [|b n]; simpl;
    try (split; [tauto | discriminate]); [tauto|].
  rewrite IH. split.
  - intros [-> ->]. reflexivity.
  - intros H. injection H as H1 H2. tauto.
Qed.

(** A split of [upper s] comes from a split of [s]. *)
Lemma upper_eq_app (s a b : string) :
  upper s = a +:+ b ->
  exists s1 s2, s = s1 +:+ s2 /\ upper s1 = a /\ upper s2 = b.
Proof.
  revert s. induction a as [|x a IH]; intros s H; simpl in H.
  - now exists "", s.
  - destruct s as [|c s]; simpl in H; [discriminate|].
    injection H as Hx H. destruct (IH _ H) as [s1 [s2 [-> [<- <-]]]].
    exists (String c s1), s2. simpl. now rewrite Hx.
Qed.

(** The test of [search_videos], [t.upper() in s.upper()], is the
    search for [t] in [s] with case ignored. *)
Lemma contains_upper_spec (t s : string) :
  contains (upper t) (upper s) = true <-> ci_substring t s.
Proof.
  rewrite contains_spec. unfold ci_substring. split.
  - intros [pre' [post' H]].
    destruct (upper_eq_app _ _ _ H) as [pre [rest [-> [_ Hrest]]]].
    destruct (upper_eq_app _ _ _ Hrest) as [mid [post [-> [Hmid _]]]].
    exists pre, mid, post. split; [reflexivity|].
    now apply same_up_to_case_upper.
  - intros [pre [mid [post [-> Hmid]]]].
    apply same_up_to_case_upper in Hmid.
    exists (upper pre), (upper post).
    now rewrite !upper_app, Hmid.
Qed.

Lemma contains_app_l (t a b : string) :
  contains t a = true -> contains t (a +:+ b) = true.
Proof.
  rewrite !contains_spec. intros [pre [post ->]].
  exists pre, (post +:+ b). now rewrite !app_assoc.
Qed.

Lemma contains_app_r (t a b : string) :
  contains t b = true -> contains t (a +:+ b) = true.
Proof.
  rewrite !contains_spec. intros [pre [post ->]].
  exists (a +:+ pre), post. now rewrite !app_assoc.
Qed.

Lemma contains_nonempty_in_empty (t : string) :
  t <> "" -> contains t "" = false.
Proof. destruct t; [congruence | reflexivity]. Qed.

(** A string without a space that starts [a + " " + b] starts [a]. *)
Lemma starts_with_app_space (t a b : string) :
  has_char " " t = false ->
  starts_with t (a +:+ String " " b) = true -> starts_with t a = true.
Proof.
  revert a. induction t as [|x t IH]; intros a Hsp H; [reflexivity|].
  simpl in Hsp. apply orb_false_iff in Hsp as [Hx Hsp].
  destruct a as [|c a]; simpl in H |- *.
  - apply andb_true_iff in H as [H _]. congruence.
  - apply andb_true_iff in H as [-> H]. simpl. now apply IH.
Qed.

(** An occurrence of a non-empty string without a space in
    [a + " " + b] lies in [a] or in [b]. *)
Lemma contains_app_space (t a b : string) :
  t <> "" -> has_char " " t = false ->
  contains t (a +:+ String " " b) = true ->
  contains t a = true \/ contains t b = true.
Proof.
  intros Hne Hsp. induction a as [|c a IH]; simpl String.append.
  - rewrite contains_cons, orb_true_iff. intros [H | H]; [|now right].
    destruct t as [|x t]; [congruence|]. simpl in H, Hsp.
    apply orb_false_iff in Hsp as [Hx _].
    apply andb_true_iff in H as [H _]. congruence.
  - rewrite !contains_cons, !orb_true_iff. intros [H | H].
    + left. left. now apply (starts_with_app_space t (String c a) b).
    + destruct (IH H) as [Ha | Hb]; [left; now right | now right].
Qed.

Lemma join_cons2 (sep x y : string) (l : list string) :
  join sep (x :: y :: l) = x +:+ sep +:+ join sep (y :: l).
Proof. reflexivity. Qed.

(** A tag that contains [t] makes the joined tags contain [t]. *)
Lemma contains_join_intro (t : string) (l : list string) :
  existsb (contains t) l = true -> contains t (join " " l) = true.
Proof.
  induction l as [|x l IH]; [discriminate|].
  destruct l as [|y l].
  - simpl. now rewrite orb_false_r.
  - rewrite join_cons2. cbn [existsb]. rewrite orb_true_iff. intros [H | H].
    + now apply contains_app_l.
    + apply contains_app_r. change (contains t (String " " (join " " (y :: l))) = true).
      rewrite contains_cons, (IH H). apply orb_true_r.
Qed.

(** For a non-empty [t] without a space the converse holds: the test on
    the joined tags is the test tag by tag. *)
Lemma contains_join (t : string) (l : list string) :
  t <> "" -> has_char " " t = false ->
  contains t (join " " l) = existsb (contains t) l.
Proof.
  intros Hne Hsp. apply eq_true_iff_eq. split; [|apply contains_join_intro].
  induction l as [|x l IH].
  - simpl join. now rewrite contains_nonempty_in_empty.
  - destruct l as [|y l].
    + simpl. now rewrite orb_false_r.
    + rewrite join_cons2. cbn [existsb]. intros H.
      apply contains_app_space in H; [|assumption..].
      apply orb_true_iff. destruct H as [H | H]; [now left | right; now apply IH].
Qed.

Lemma upper_ascii_space (c : ascii) :
  Ascii.eqb (upper_ascii c) " " = Ascii.eqb c " ".
Proof. destruct c as [[] [] [] [] [] [] [] []]; reflexivity. Qed.

Lemma has_space_upper (t : string) :
  has_char " " (upper t) = has_char " " t.
Proof.
  induction t as [|c t IH]; [reflexivity|].
  simpl. now rewrite upper_ascii_space, IH.
Qed.

Lemma upper_nonempty (t : string) : t <> "" -> upper t <> "".
Proof. destruct t; [congruence | discriminate]. Qed.

Lemma upper_join (l : list string) :
  upper (join " " l) = join " " (map upper l).
Proof.
  induction l as [|x l IH]; [reflexivity|].
  destruct l as [|y l]; [reflexivity|].
  rewrite join_cons2, !upper_app, IH. reflexivity.
Qed.

End StrFacts.

(** ** The library *)

Lemma get_video_id lib id v : get_video lib id = Some v -> video_id v = id.
Proof.
  unfold get_video. intros H. apply find_some in H as [_ H].
  now apply String.eqb_eq.
Qed.

Lemma get_video_In lib id v : get_video lib id = Some v -> In v lib.
Proof. unfold get_video. intros H. now apply find_some in H. Qed.

(** With unique ids, a video of the library is the one its id finds. *)
Lemma get_video_unique lib v :
  List.NoDup (map video_id lib) -> In v lib -> get_video lib (video_id v) = Some v.
Proof.
  unfold get_video. induction lib as [|w lib IH]; intros Hnd Hin; [contradiction|].
  simpl in Hnd. inversion Hnd as [|? ? Hnot Hnd']; subst.
  simpl. destruct (String.eqb_spec (video_id w) (video_id v)) as [E | NE].
  - destruct Hin as [-> | Hin]; [reflexivity|].
    exfalso. apply Hnot. rewrite E. now apply in_map.
  - destruct Hin as [-> | Hin]; [congruence | now apply IH].
Qed.

(** Reading the library after [lib._videos[id]._flag_reason = r]. *)
Lemma get_video_set_flag lib id r p :
  get_video (set_flag_reason lib id r) p =
  if String.eqb p id then (fun v => with_flag v r) <$> get_video lib p
  else get_video lib p.
Proof.
  unfold get_video. induction lib as [|w lib IH]; simpl.
  - now destruct (String.eqb p id).
  - destruct (String.eqb_spec (video_id w) id) as [E | NE]; simpl.
    + destruct (String.eqb_spec (video_id w) p) as [E' | NE'].
      * subst. now rewrite String.eqb_refl.
      * destruct (String.eqb_spec p id); [congruence | reflexivity].
    + destruct (String.eqb_spec (video_id w) p) as [E' | NE'].
      * destruct (String.eqb_spec p id); [congruence | reflexivity].
      * apply IH.
Qed.

Lemma get_video_set_flag_same lib id r v :
  get_video lib id = Some v ->
  get_video (set_flag_reason lib id r) id = Some (with_flag v r).
Proof. intros H. now rewrite get_video_set_flag, String.eqb_refl, H. Qed.

Lemma matched_by_title_unflagged lib t v :
  In v (matched_by_title lib t) -> flag_reason v = None.
Proof.
  unfold matched_by_title. rewrite filter_In, andb_true_iff.
  unfold is_unflagged. intros [_ [_ H]]. now destruct (flag_reason v).
Qed.

Lemma matched_by_tag_unflagged lib t v :
  In v (matched_by_tag lib t) -> flag_reason v = None.
Proof.
  unfold matched_by_tag. rewrite filter_In, andb_true_iff.
  unfold is_unflagged. intros [_ [_ H]]. now destruct (flag_reason v).
Qed.

(** ** The playing video is not flagged *)

Lemma play_video_library self id :
  _video_library (fst (play_video self id)) = _video_library self.
Proof. unfold play_video. simpl. repeat case_match; reflexivity. Qed.

Lemma play_video_playlists self id :
  _playlists (fst (play_video self id)) = _playlists self.
Proof. unfold play_video. simpl. repeat case_match; reflexivity. Qed.

(** What [play_video] leaves in [_playing_video]. *)
Lemma play_video_playing self id :
  _playing_video (fst (play_video self id)) =
  match get_video (_video_library self) id with
  | Some v => if is_unflagged v then Some id else _playing_video self
  | None => _playing_video self
  end.
Proof.
  unfold play_video, is_unflagged. simpl.
  destruct (get_video (_video_library self) id) as [v|] eqn:E; [|reflexivity].
  apply get_video_id in E. destruct (flag_reason v); [reflexivity|].
  destruct (_playing_video self); simpl; now rewrite E.
Qed.

Lemma play_video_keeps self id :
  playing_unflagged self -> playing_unflagged (fst (play_video self id)).
Proof.
  intros Hinv p. rewrite play_video_playing, play_video_library.
  destruct (get_video (_video_library self) id) as [v|] eqn:E; [|apply Hinv].
  unfold is_unflagged. destruct (flag_reason v) eqn:F; [apply Hinv|].
  intros [= <-]. now exists v.
Qed.

Lemma display_matched_videos_keeps self videos answer :
  playing_unflagged self ->
  playing_unflagged (fst (display_matched_videos self videos answer)).
Proof.
  intros Hinv. unfold display_matched_videos.
  destruct answer as [number|]; [|exact Hinv].
  destruct (_ && _)%bool; [|exact Hinv].
  destruct (nth_error videos _) as [w|]; [|exact Hinv].
  pose proof (play_video_keeps self (video_id w) Hinv) as H.
  now destruct (play_video self (video_id w)).
Qed.

Lemma flag_video_keeps self id reason :
  playing_unflagged self -> playing_unflagged (fst (flag_video self id reason)).
Proof.
  intros Hinv. unfold flag_video.
  destruct (get_video (_video_library self) id) as [v|] eqn:E; [|exact Hinv].
  destruct (flag_reason v) eqn:F; [exact Hinv|].
  pose proof (get_video_id _ _ _ E) as Hid.
  unfold is_playing, stop_video.
  destruct (_playing_video self) as [p|] eqn:P; simpl.
  - destruct (String.eqb_spec p (video_id v)) as [Ep | NEp]; simpl.
    + intros q. simpl. discriminate.
    + intros q. simpl. rewrite P. intros [= <-].
      rewrite get_video_set_flag.
      destruct (String.eqb_spec p id); [congruence|]. now apply Hinv.
  - intros q. simpl. rewrite P. discriminate.
Qed.

Lemma allow_video_keeps self id :
  playing_unflagged self -> playing_unflagged (fst (allow_video self id)).
Proof.
  intros Hinv. unfold allow_video.
  destruct (get_video (_video_library self) id) as [v|] eqn:E; [|exact Hinv].
  destruct (flag_reason v) eqn:F; [|exact Hinv].
  intros q. simpl. intros P. rewrite get_video_set_flag.
  destruct (String.eqb_spec q id) as [-> | NE]; [|now apply Hinv].
  rewrite E. simpl. now exists (with_flag v None).
Qed.

(** Every call keeps the playing video unflagged. *)
Lemma call_keeps self c :
  playing_unflagged self -> playing_unflagged (fst (call self c)).
Proof.
  intros Hinv. destruct c; simpl.
  - exact Hinv.
  - exact Hinv.
  - now apply play_video_keeps.
  - unfold stop_video. destruct (_playing_video self); [|exact Hinv].
    intros q. simpl. discriminate.
  - unfold play_random_video. case_match; [now apply play_video_keeps | exact Hinv].
  - unfold pause_video. repeat case_match; exact Hinv.
  - unfold continue_video. repeat case_match; exact Hinv.
  - unfold show_playing. repeat case_match; exact Hinv.
  - unfold create_playlist. repeat case_match; exact Hinv.
  - unfold add_to_playlist. repeat case_match; exact Hinv.
  - unfold show_all_playlists. repeat case_match; exact Hinv.
  - unfold show_playlist. repeat case_match; exact Hinv.
  - unfold remove_from_playlist. repeat case_match; exact Hinv.
  - unfold clear_playlist. repeat case_match; exact Hinv.
  - unfold delete_playlist. repeat case_match; exact Hinv.
  - unfold search_videos. cbv zeta.
    destruct (matched_by_title (_video_library self) search_term) as [|w ws]; [exact Hinv|].
    pose proof (display_matched_videos_keeps self (w :: ws) answer Hinv) as H.
    now destruct (display_matched_videos _ _ _).
  - unfold search_videos_tag. cbv zeta.
    destruct (matched_by_tag (_video_library self) video_tag) as [|w ws]; [exact Hinv|].
    pose proof (display_matched_videos_keeps self (w :: ws) answer Hinv) as H.
    now destruct (display_matched_videos _ _ _).
  - now apply flag_video_keeps.
  - now apply flag_video_keeps.
  - now apply allow_video_keeps.
Qed.

Lemma init_playing_unflagged lib : playing_unflagged (init lib).
Proof. intros id. discriminate. Qed.

Lemma run_keeps cs : forall self,
  playing_unflagged self -> playing_unflagged (run self cs).
Proof.
  induction cs as [|c cs IH]; intros self Hinv; [exact Hinv|].
  apply IH. now apply call_keeps.
Qed.

Lemma reachable_playing_unflagged lib self :
  reachable lib self -> playing_unflagged self.
Proof.
  induction 1 as [|self c _ IH]; [apply init_playing_unflagged | now apply call_keeps].
Qed.

Lemma reachable_run_from lib cs : forall self,
  reachable lib self -> reachable lib (run self cs).
Proof.
  induction cs as [|c cs IH]; intros self H; [exact H|].
  apply IH. now constructor.
Qed.

Lemma reachable_run lib cs : reachable lib (run (init lib) cs).
Proof. apply reachable_run_from. constructor. Qed.

(** ** Calls with the id of no video *)

(** C1, as stated, fails: without a playlist of the given name,
    [add_to_playlist] and [remove_from_playlist] report the missing playlist,
    not the missing video; the playlist is looked at first. *)
Lemma missing_video_in_missing_playlist :
  get_video demo_library "nope" = None /\
  add_to_playlist (init demo_library) "mine" "nope"
    = (init demo_library, ["Cannot add video to mine: Playlist does not exist"]) /\
  snd (add_to_playlist (init demo_library) "mine" "nope")
    <> ["Cannot add video to mine: Video does not exist"] /\
  remove_from_playlist (init demo_library) "mine" "nope"
    = (init demo_library, ["Cannot remove video from mine: Playlist does not exist"]) /\
  snd (remove_from_playlist (init demo_library) "mine" "nope")
    <> ["Cannot remove video from mine: Video does not exist"].
Proof. repeat split; discriminate. Qed.

(** C1, amended.  For an id that is not in the library: [flag_video] and
    [allow_video] print that the video does not exist and leave the state as
    it is; [add_to_playlist] and [remove_from_playlist] leave the state as it
    is and print that the video does not exist when the playlist exists, that
    the playlist does not exist otherwise; [play_video] prints that the video
    does not exist and leaves the playing video, the playlists and the
    library as they are. *)
Theorem missing_video_rejected self id :
  get_video (_video_library self) id = None ->
  (snd (play_video self id) = ["Cannot play video: Video does not exist"] /\
   _playing_video (fst (play_video self id)) = _playing_video self /\
   _playlists (fst (play_video self id)) = _playlists self /\
   _video_library (fst (play_video self id)) = _video_library self) /\
  (forall reason,
     flag_video self id reason = (self, ["Cannot flag video: Video does not exist"])) /\
  allow_video self id = (self, ["Cannot remove flag from video: Video does not exist"]) /\
  (forall playlist_name,
     add_to_playlist self playlist_name id =
     (self,
      ["Cannot add video to " +:+ playlist_name +:+
         match _playlists self !! Str.upper playlist_name with
         | Some _ => ": Video does not exist"
         | None => ": Playlist does not exist"
         end])) /\
  (forall playlist_name,
     remove_from_playlist self playlist_name id =
     (self,
      ["Cannot remove video from " +:+ playlist_name +:+
         match _playlists self !! Str.upper playlist_name with
         | Some _ => ": Video does not exist"
         | None => ": Playlist does not exist"
         end])).
Proof.
  intros H. repeat split.
  - unfold play_video. simpl. now rewrite H.
  - rewrite play_video_playing. now rewrite H.
  - apply play_video_playlists.
  - apply play_video_library.
  - intros reason. unfold flag_video. now rewrite H.
  - unfold allow_video. now rewrite H.
  - intros n. unfold add_to_playlist. rewrite H.
    now destruct (_playlists self !! Str.upper n).
  - intros n. unfold remove_from_playlist, has_video. rewrite H.
    now destruct (_playlists self !! Str.upper n).
Qed.

Lemma missing_video_rejected_witness :
  allow_video (init demo_library) "nope"
    = (init demo_library, ["Cannot remove flag from video: Video does not exist"]).
Proof.
  apply (missing_video_rejected (init demo_library) "nope"). reflexivity.
Defined.

(** What the amended C1 leaves open: [play_video] clears the paused flag
    before it looks the video up, so a failed call on a paused player
    un-pauses it. *)
Lemma play_video_missing_clears_pause self id :
  get_video (_video_library self) id = None ->
  fst (play_video self id) = set_paused self false.
Proof. intros H. unfold play_video. simpl. now rewrite H. Qed.

Example play_video_missing_on_paused :
  let self := run (init demo_library) [CPlay "v1"; CPause] in
  _is_video_paused self = true /\
  snd (play_video self "nope") = ["Cannot play video: Video does not exist"] /\
  _is_video_paused (fst (play_video self "nope")) = false /\
  snd (continue_video (fst (play_video self "nope")))
    = ["Cannot continue video: Video is not paused"].
Proof. repeat split. Qed.

(** ** The playing video *)

(** C2.  After any sequence of calls on a new player, the playing video,
    if there is one, is in the library and is not flagged.  [play_video]
    on a flagged video leaves the playing video as it was, a random play
    only ever starts an unflagged video, and [flag_video] on the playing
    video leaves no video playing and the video flagged. *)
Theorem playing_video_never_flagged lib cs id :
  _playing_video (run (init lib) cs) = Some id ->
  let self := run (init lib) cs in
  (exists v, get_video (_video_library self) id = Some v /\ flag_reason v = None) /\
  (forall id' v r,
     get_video (_video_library self) id' = Some v -> flag_reason v = Some r ->
     _playing_video (fst (play_video self id')) = Some id) /\
  (forall rnd, playing_unflagged (fst (play_random_video self rnd))) /\
  (forall reason,
     let self' := fst (flag_video self id reason) in
     _playing_video self' = None /\
     exists v, get_video (_video_library self') id = Some v
               /\ flag_reason v = Some reason).
Proof.
  intros P self.
  pose proof (run_keeps cs (init lib) (init_playing_unflagged lib)) as Hinv.
  fold self in Hinv, P. destruct (Hinv id P) as [v [Hv Hf]].
  split; [now exists v|]. split; [|split].
  - intros id' w r Hw Hr. rewrite play_video_playing, Hw.
    unfold is_unflagged. now rewrite Hr.
  - intros rnd. apply (call_keeps self (CPlayRandom rnd) Hinv).
  - intros reason. unfold flag_video. rewrite Hv, Hf.
    pose proof (get_video_id _ _ _ Hv) as Hid.
    unfold is_playing, stop_video. rewrite P, Hid, String.eqb_refl. simpl.
    split; [reflexivity|]. exists (with_flag v (Some reason)).
    split; [now apply get_video_set_flag_same | reflexivity].
Qed.

Lemma playing_video_never_flagged_witness :
  exists v,
    get_video
      (_video_library
         (run (init demo_library)
            [CPlay "v1"; CFlag "v1" "dull"; CAllow "v1"; CPlay "v2"; CSearch "a" (Some 2%Z)]))
      "v3" = Some v
    /\ flag_reason v = None.
Proof.
  apply (playing_video_never_flagged demo_library
           [CPlay "v1"; CFlag "v1" "dull"; CAllow "v1"; CPlay "v2"; CSearch "a" (Some 2%Z)]
           "v3").
  reflexivity.
Defined.

(** C4.  For the id of a video that is in the library and not flagged,
    [play_video] prints that it stops the video that was playing, if there
    was one, and that it plays the new one; afterwards that video is the
    playing one and the player is not paused, whatever was playing or
    paused before.  Library and playlists are as before. *)
Theorem play_video_unflagged self id v :
  get_video (_video_library self) id = Some v ->
  flag_reason v = None ->
  _playing_video (fst (play_video self id)) = Some id /\
  _is_video_paused (fst (play_video self id)) = false /\
  _video_library (fst (play_video self id)) = _video_library self /\
  _playlists (fst (play_video self id)) = _playlists self /\
  snd (play_video self id) =
    match _playing_video self with
    | None => ["Playing video: " +:+ title v]
    | Some old =>
        ["Stopping video: " +:+ title_of (_video_library self) old;
         "Playing video: " +:+ title v]
    end.
Proof.
  intros Hv Hf. pose proof (get_video_id _ _ _ Hv) as Hid.
  unfold play_video. simpl. rewrite Hv, Hf, Hid.
  now destruct (_playing_video self).
Qed.

Lemma play_video_unflagged_witness :
  let self := run (init demo_library) [CPlay "v1"; CPause] in
  _is_video_paused self = true /\
  _playing_video (fst (play_video self "v3")) = Some "v3" /\
  _is_video_paused (fst (play_video self "v3")) = false /\
  snd (play_video self "v3") = ["Stopping video: Amy"; "Playing video: Cat"].
Proof.
  intros self. split; [reflexivity|].
  destruct (play_video_unflagged self "v3" (mkVideo "Cat" "v3" [] None))
    as [H1 [H2 [_ [_ H3]]]]; [reflexivity | reflexivity |].
  now rewrite H1, H2, H3.
Defined.

(** ** Searching *)

Lemma filter_sublist {A} (f : A -> bool) (l : list A) :
  List.filter f l `sublist_of` l.
Proof.
  induction l as [|x l IH]; simpl; [constructor|].
  destruct (f x); now constructor.
Qed.

Lemma is_unflagged_spec v : is_unflagged v = true <-> flag_reason v = None.
Proof. unfold is_unflagged. destruct (flag_reason v); split; congruence. Qed.



(** C3 at two inputs.  [search_videos_tag] looks for the query in the
    tags joined by spaces, not in each tag: the query ["pet #d"] lists a
    video whose tags are ["#pet"] and ["#dog"], neither of which contains
    it, and the empty query lists a video that has no tag. *)
Lemma search_videos_tag_across_tags :
  let v := mkVideo "Dog" "v4" ["#pet"; "#dog"] None in
  matched_by_tag [v] "pet #d" = [v] /\
  existsb (fun tg => Str.contains (Str.upper "pet #d") (Str.upper tg)) (tags v) = false /\
  (forall tg, In tg (tags v) -> ~ Str.ci_substring "pet #d" tg) /\
  snd (search_videos_tag (init [v]) "pet #d" None)
    = ["Here are the results for pet #d:"; "  1) Dog (v4) [#pet #dog]";
       "Would you like to play any of the above? If yes, specify the number of the video.";
       "If your answer is not a valid number, we will assume it's a no."] /\
  let w := mkVideo "Cat" "v3" [] None in
  matched_by_tag [w] "" = [w] /\ tags w = [].
Proof.
  repeat split.
  intros tg Hin Hsub. apply StrFacts.contains_upper_spec in Hsub.
  simpl in Hin. destruct Hin as [<- | [<- | []]]; discriminate.
Qed.

(** The list [search_videos_tag] builds, for any query: the unflagged
    videos whose tags, joined by spaces, contain the query when case is
    ignored. *)
Lemma matched_by_tag_spec lib video_tag v :
  In v (matched_by_tag lib video_tag) <->
  In v lib /\ flag_reason v = None /\ Str.ci_substring video_tag (tags_text v).
Proof.
  unfold matched_by_tag, get_all_videos.
  rewrite filter_In, andb_true_iff, StrFacts.contains_upper_spec, is_unflagged_spec.
  tauto.
Qed.

(** A tag that contains the query always makes the video match. *)
Lemma tag_match_joined video_tag l :
  (exists tg, In tg l /\ Str.ci_substring video_tag tg) ->
  Str.ci_substring video_tag (Str.join " " l).
Proof.
  intros [tg [Hin Hsub]].
  apply StrFacts.contains_upper_spec. rewrite StrFacts.upper_join.
  apply StrFacts.contains_join_intro. apply existsb_exists.
  exists (Str.upper tg). split; [now apply in_map|].
  now apply StrFacts.contains_upper_spec.
Qed.

(** For a non-empty query without a space, a match in the joined tags is a
    match in one tag. *)
Lemma joined_match_tag video_tag l :
  video_tag <> "" -> Str.has_char " " video_tag = false ->
  Str.ci_substring video_tag (Str.join " " l) ->
  exists tg, In tg l /\ Str.ci_substring video_tag tg.
Proof.
  intros Hne Hsp Hsub.
  apply StrFacts.contains_upper_spec in Hsub. rewrite StrFacts.upper_join in Hsub.
  rewrite StrFacts.contains_join in Hsub;
    [|now apply StrFacts.upper_nonempty | now rewrite StrFacts.has_space_upper].
  apply existsb_exists in Hsub as [utg [Hin Hc]].
  apply in_map_iff in Hin as [tg [<- Hin]].
  exists tg. split; [exact Hin | now apply StrFacts.contains_upper_spec].
Qed.

(** Where the search by tag is a search tag by tag.  For a query that is
    not empty and has no space, the videos that [search_videos_tag] lists
    are the videos of the library, in library order, that are not flagged
    and have at least one tag with the query as a substring when case is
    ignored; a video none of whose tags contains the query is not listed. *)
Lemma search_videos_tag_matches self video_tag :
  video_tag <> "" ->
  Str.has_char " " video_tag = false ->
  let lib := _video_library self in
  let matched := matched_by_tag lib video_tag in
  (forall v, In v matched <->
     In v lib /\ flag_reason v = None /\
     exists tg, In tg (tags v) /\ Str.ci_substring video_tag tg) /\
  matched `sublist_of` lib /\
  search_videos_tag self video_tag None = (self, search_output video_tag matched).
Proof.
  intros Hne Hsp lib matched. split; [|split].
  - intros v. unfold matched. rewrite matched_by_tag_spec. split.
    + intros [H1 [H2 H3]]. repeat split; try assumption.
      now apply joined_match_tag.
    + intros [H1 [H2 H3]]. repeat split; try assumption.
      now apply tag_match_joined.
  - apply filter_sublist.
  - unfold search_videos_tag, search_output. fold lib. fold matched.
    now destruct matched.
Qed.

Lemma search_videos_tag_matches_witness :
  search_videos_tag (init demo_library) "#FUN" None
  = (init demo_library,
     search_output "#FUN" [mkVideo "Amy" "v1" ["#fun"] None]).
Proof.
  apply (search_videos_tag_matches (init demo_library) "#FUN");
    [discriminate | reflexivity].
Defined.

(** ** Playlists *)

Lemma playlist_has_app pl_name l id :
  playlist_has (mkPlaylist pl_name (l ++ [id])) id = true.
Proof.
  unfold playlist_has. simpl. rewrite existsb_app. simpl.
  now rewrite String.eqb_refl, orb_true_r.
Qed.

Lemma filter_absent id l :
  existsb (String.eqb id) l = false ->
  List.filter (fun k => negb (String.eqb id k)) l = l.
Proof.
  induction l as [|k l IH]; simpl; [reflexivity|].
  intros H. apply orb_false_iff in H as [Hk Hl].
  now rewrite Hk, (IH Hl).
Qed.

(** Deleting the key that was just added gives the playlist back. *)
Lemma playlist_del_set pl id :
  playlist_has pl id = false -> playlist_del (playlist_set pl id) id = pl.
Proof.
  intros H. unfold playlist_set. rewrite H. unfold playlist_del. simpl.
  destruct pl as [n l]. unfold playlist_has in H. simpl in *. f_equal.
  rewrite List.filter_app. simpl. rewrite String.eqb_refl. simpl.
  rewrite app_nil_r. now apply filter_absent.
Qed.

Lemma playlist_has_del pl id : playlist_has (playlist_del pl id) id = false.
Proof.
  unfold playlist_has, playlist_del. simpl.
  induction (_videos pl) as [|k l IH]; simpl; [reflexivity|].
  destruct (String.eqb id k) eqn:E; simpl; [exact IH | now rewrite E].
Qed.

(** C5.  In a playlist that exists, for a video of the library that is
    not flagged and not in the playlist: [add_to_playlist] puts the id at
    the end of the playlist, and [remove_from_playlist] with the same name
    and id then gives back the playlist with the ids it had before the
    add, in the same order; the whole state is as before the add. *)
Theorem add_then_remove self playlist_name id pl v :
  _playlists self !! Str.upper playlist_name = Some pl ->
  get_video (_video_library self) id = Some v ->
  flag_reason v = None ->
  playlist_has pl id = false ->
  let added := add_to_playlist self playlist_name id in
  let removed := remove_from_playlist (fst added) playlist_name id in
  snd added = ["Added video to " +:+ playlist_name +:+ ": " +:+ title v] /\
  (exists pl1, _playlists (fst added) !! Str.upper playlist_name = Some pl1
               /\ _videos pl1 = _videos pl ++ [id]) /\
  snd removed = ["Removed video from " +:+ playlist_name +:+ ": " +:+ title v] /\
  (exists pl2, _playlists (fst removed) !! Str.upper playlist_name = Some pl2
               /\ _videos pl2 = _videos pl) /\
  fst removed = self.
Proof.
  intros Hpl Hv Hf Hhas added removed.
  pose proof (get_video_id _ _ _ Hv) as Hid.
  assert (Ha : added =
    (set_playlists self
       (<[Str.upper playlist_name := playlist_set pl id]> (_playlists self)),
     ["Added video to " +:+ playlist_name +:+ ": " +:+ title v])).
  { unfold added, add_to_playlist. now rewrite Hpl, Hv, Hf, Hid, Hhas. }
  assert (Hset : playlist_set pl id = mkPlaylist (name pl) (_videos pl ++ [id])).
  { unfold playlist_set. now rewrite Hhas. }
  assert (Hr : removed =
    (self, ["Removed video from " +:+ playlist_name +:+ ": " +:+ title v])).
  { unfold removed. rewrite Ha. unfold remove_from_playlist, has_video, title_of.
    simpl. rewrite lookup_insert_eq, Hv. simpl.
    rewrite Hset at 1. rewrite playlist_has_app. simpl.
    rewrite insert_insert_eq, playlist_del_set by assumption.
    rewrite (insert_id _ _ _ Hpl). now destruct self. }
  rewrite Hr, Ha. simpl. repeat split.
  - exists (playlist_set pl id). rewrite lookup_insert_eq, Hset. now split.
  - now exists pl.
Qed.

Lemma add_then_remove_witness :
  let self := run (init demo_library)
                [CCreatePlaylist "Mine"; CAddToPlaylist "mine" "v3"] in
  fst (remove_from_playlist (fst (add_to_playlist self "MINE" "v1")) "MINE" "v1")
  = self.
Proof.
  intros self.
  apply (add_then_remove self "MINE" "v1" (mkPlaylist "Mine" ["v3"])
           (mkVideo "Amy" "v1" ["#fun"] None)); reflexivity.
Defined.



(** C10.  [remove_from_playlist] does not look at the flag: for a playlist
    that exists and holds the id of a video of the library, the call takes
    the id out of the playlist and prints that it removed the video, also
    when the video is flagged. *)
Theorem remove_flagged_from_playlist self playlist_name id pl v :
  _playlists self !! Str.upper playlist_name = Some pl ->
  playlist_has pl id = true ->
  get_video (_video_library self) id = Some v ->
  remove_from_playlist self playlist_name id =
    (set_playlists self
       (<[Str.upper playlist_name := playlist_del pl id]> (_playlists self)),
     ["Removed video from " +:+ playlist_name +:+ ": " +:+ title v]) /\
  playlist_has (playlist_del pl id) id = false /\
  _video_library (fst (remove_from_playlist self playlist_name id))
    = _video_library self.
Proof.
  intros Hpl Hhas Hv.
  assert (E : remove_from_playlist self playlist_name id =
    (set_playlists self
       (<[Str.upper playlist_name := playlist_del pl id]> (_playlists self)),
     ["Removed video from " +:+ playlist_name +:+ ": " +:+ title v])).
  { unfold remove_from_playlist, has_video, title_of. now rewrite Hpl, Hv, Hhas. }
  rewrite E. repeat split. apply playlist_has_del.
Qed.

Lemma remove_flagged_from_playlist_witness :
  let self := run (init demo_library)
                [CCreatePlaylist "Mine"; CAddToPlaylist "mine" "v1";
                 CAddToPlaylist "mine" "v3"; CFlag "v1" "dull"] in
  flag_reason <$> get_video (_video_library self) "v1" = Some (Some "dull") /\
  snd (remove_from_playlist self "MINE" "v1") = ["Removed video from MINE: Amy"] /\
  _videos <$> _playlists (fst (remove_from_playlist self "MINE" "v1")) !! "MINE"
    = Some ["v3"].
Proof.
  intros self. split; [reflexivity|].
  destruct (remove_flagged_from_playlist self "MINE" "v1"
              (mkPlaylist "Mine" ["v1"; "v3"])
              (mkVideo "Amy" "v1" ["#fun"] (Some "dull")))
    as [E _]; [reflexivity | reflexivity | reflexivity |].
  rewrite E. split; reflexivity.
Defined.

(** ** Flagging *)

(** What a first [flag_video] on an unflagged video of the library does:
    the video that plays is stopped if it is this one, and the reason is
    stored. *)
Lemma flag_video_unflagged self id reason v :
  get_video (_video_library self) id = Some v ->
  flag_reason v = None ->
  let self1 := fst (flag_video self id reason) in
  _video_library self1 = set_flag_reason (_video_library self) id (Some reason) /\
  get_video (_video_library self1) id = Some (with_flag v (Some reason)) /\
  _playlists self1 = _playlists self /\
  _playing_video self1 =
    (if is_playing self v then None else _playing_video self).
Proof.
  intros Hv Hf. unfold flag_video. rewrite Hv, Hf.
  unfold stop_video, is_playing.
  destruct (_playing_video self) as [p|] eqn:P; simpl.
  - destruct (String.eqb p (video_id v)); simpl; rewrite ?P;
      repeat split; now apply get_video_set_flag_same.
  - rewrite P. repeat split. now apply get_video_set_flag_same.
Qed.

(** C7.  For a video of the library that is not flagged, a second
    [flag_video] after a first prints that the video is already flagged and
    returns the state the first call left: the library keeps the reason of
    the first call, whatever reason the second gives. *)
Theorem flag_video_twice self id reason reason' v :
  get_video (_video_library self) id = Some v ->
  flag_reason v = None ->
  let self1 := fst (flag_video self id reason) in
  flag_video self1 id reason'
    = (self1, ["Cannot flag video: Video is already flagged"]) /\
  flag_reason <$> get_video (_video_library self1) id = Some (Some reason) /\
  flag_reason <$> get_video (_video_library (fst (flag_video self1 id reason'))) id
    = Some (Some reason).
Proof.
  intros Hv Hf self1.
  destruct (flag_video_unflagged self id reason v Hv Hf) as [_ [Hget _]].
  fold self1 in Hget.
  assert (E : flag_video self1 id reason'
              = (self1, ["Cannot flag video: Video is already flagged"])).
  { unfold flag_video at 1. now rewrite Hget. }
  rewrite E. simpl. now rewrite Hget.
Qed.

Lemma flag_video_twice_witness :
  let self1 := fst (flag_video (init demo_library) "v1" "dull") in
  flag_video self1 "v1" "dull"
    = (self1, ["Cannot flag video: Video is already flagged"]).
Proof.
  intros self1.
  apply (flag_video_twice (init demo_library) "v1" "dull" "dull"
           (mkVideo "Amy" "v1" ["#fun"] None)); reflexivity.
Defined.

(** C9.  A video flagged without a reason is flagged.  For a video of the
    library that is not flagged, [flag_video] with the default reason is
    [flag_video] with the empty string, and stores the empty string, which
    is not [None].  After it, [play_video] prints that the video is flagged
    and leaves the playing video as it is, [flag_video] prints that it is
    already flagged and changes nothing, neither search lists the flagged
    video and, ids being unique, no search result has its id. *)
Theorem flag_video_without_reason self id v :
  get_video (_video_library self) id = Some v ->
  flag_reason v = None ->
  let self1 := fst (flag_video_default self id) in
  self1 = fst (flag_video self id "") /\
  get_video (_video_library self1) id = Some (with_flag v (Some "")) /\
  snd (play_video self1 id)
    = ["Cannot play video: Video is currently flagged (reason: Not supplied)"] /\
  _playing_video (fst (play_video self1 id)) = _playing_video self1 /\
  (forall reason,
     flag_video self1 id reason
       = (self1, ["Cannot flag video: Video is already flagged"])) /\
  (forall term,
     ~ In (with_flag v (Some "")) (matched_by_title (_video_library self1) term) /\
     ~ In (with_flag v (Some "")) (matched_by_tag (_video_library self1) term)) /\
  (List.NoDup (map video_id (_video_library self1)) ->
   forall term w,
     In w (matched_by_title (_video_library self1) term) \/
     In w (matched_by_tag (_video_library self1) term) ->
     video_id w <> id).
Proof.
  intros Hv Hf self1.
  destruct (flag_video_unflagged self id "" v Hv Hf) as [_ [Hget _]].
  change (fst (flag_video self id "")) with self1 in Hget.
  split; [reflexivity|]. split; [exact Hget|]. split; [|split; [|split; [|split]]].
  - unfold play_video. simpl. now rewrite Hget.
  - rewrite play_video_playing. now rewrite Hget.
  - intros reason. unfold flag_video at 1. now rewrite Hget.
  - intros term. split; intros Hin.
    + now apply matched_by_title_unflagged in Hin.
    + now apply matched_by_tag_unflagged in Hin.
  - intros Hnd term w Hin Hid.
    assert (Hw : In w (_video_library self1) /\ flag_reason w = None).
    { destruct Hin as [Hin | Hin].
      - split; [|now apply matched_by_title_unflagged in Hin].
        unfold matched_by_title in Hin. now apply filter_In in Hin.
      - split; [|now apply matched_by_tag_unflagged in Hin].
        unfold matched_by_tag in Hin. now apply filter_In in Hin. }
    destruct Hw as [Hw Hfw].
    apply (get_video_unique _ _ Hnd) in Hw. rewrite Hid, Hget in Hw.
    injection Hw as <-. discriminate.
Qed.

Lemma flag_video_without_reason_witness :
  let self1 := fst (flag_video_default (init demo_library) "v1") in
  snd (play_video self1 "v1")
    = ["Cannot play video: Video is currently flagged (reason: Not supplied)"] /\
  matched_by_title (_video_library self1) "a" = [mkVideo "Cat" "v3" [] None] /\
  matched_by_tag (_video_library self1) "#fun" = [].
Proof.
  intros self1. split; [|split; reflexivity].
  apply (flag_video_without_reason (init demo_library) "v1"
           (mkVideo "Amy" "v1" ["#fun"] None)); reflexivity.
Defined.

(** * Further properties of the methods *)

(** ** What each call writes *)

Lemma display_matched_videos_fields self videos answer :
  _video_library (fst (display_matched_videos self videos answer))
    = _video_library self /\
  _playlists (fst (display_matched_videos self videos answer)) = _playlists self.
Proof.
  unfold display_matched_videos. repeat case_match; try (now split).
  match goal with
  | H : play_video self ?i = _ |- _ =>
      pose proof (play_video_library self i) as HL;
      pose proof (play_video_playlists self i) as HP;
      rewrite H in HL, HP
  end.
  now split.
Qed.

Lemma search_videos_fields self t answer :
  _video_library (fst (search_videos self t answer)) = _video_library self /\
  _playlists (fst (search_videos self t answer)) = _playlists self.
Proof.
  unfold search_videos. cbv zeta.
  destruct (matched_by_title (_video_library self) t) as [|w ws]; [now split|].
  pose proof (display_matched_videos_fields self (w :: ws) answer) as H.
  now destruct (display_matched_videos _ _ _).
Qed.

Lemma search_videos_tag_fields self t answer :
  _video_library (fst (search_videos_tag self t answer)) = _video_library self /\
  _playlists (fst (search_videos_tag self t answer)) = _playlists self.
Proof.
  unfold search_videos_tag. cbv zeta.
  destruct (matched_by_tag (_video_library self) t) as [|w ws]; [now split|].
  pose proof (display_matched_videos_fields self (w :: ws) answer) as H.
  now destruct (display_matched_videos _ _ _).
Qed.

Lemma flag_video_playlists self id reason :
  _playlists (fst (flag_video self id reason)) = _playlists self.
Proof.
  unfold flag_video, stop_video. repeat case_match; simplify_eq; reflexivity.
Qed.

Lemma flag_video_paused self id reason :
  _is_video_paused (fst (flag_video self id reason)) = _is_video_paused self.
Proof.
  unfold flag_video, stop_video. repeat case_match; simplify_eq; reflexivity.
Qed.

(** The library after [flag_video]: as before, or with the one flag set. *)
Lemma flag_video_library self id reason :
  _video_library (fst (flag_video self id reason)) = _video_library self \/
  _video_library (fst (flag_video self id reason))
    = set_flag_reason (_video_library self) id (Some reason).
Proof.
  unfold flag_video, stop_video. repeat case_match; simplify_eq; simpl; auto.
Qed.

Lemma allow_video_library self id :
  _video_library (fst (allow_video self id)) = _video_library self \/
  _video_library (fst (allow_video self id))
    = set_flag_reason (_video_library self) id None.
Proof. unfold allow_video. repeat case_match; simpl; auto. Qed.

(** The calls that do not write to the library leave it as it is. *)
Lemma call_library_unwritten self c :
  writes_library c = false ->
  _video_library (fst (call self c)) = _video_library self.
Proof.
  destruct c; simpl; try discriminate; intros _; try reflexivity;
    try apply play_video_library; try apply play_video_playlists;
    try apply search_videos_fields; try apply search_videos_tag_fields;
    try apply flag_video_playlists;
    try (unfold play_random_video; case_match;
         [apply play_video_library || apply play_video_playlists | reflexivity]);
    try (unfold stop_video, pause_video, continue_video, show_playing,
           create_playlist, add_to_playlist, remove_from_playlist,
           clear_playlist, delete_playlist, allow_video, show_playlist,
           show_all_playlists;
         repeat case_match; simpl; congruence).
Qed.

(** The calls that do not write to the playlists leave them as they are. *)
Lemma call_playlists_unwritten self c :
  writes_playlists c = false ->
  _playlists (fst (call self c)) = _playlists self.
Proof.
  destruct c; simpl; try discriminate; intros _; try reflexivity;
    try apply play_video_library; try apply play_video_playlists;
    try apply search_videos_fields; try apply search_videos_tag_fields;
    try apply flag_video_playlists;
    try (unfold play_random_video; case_match;
         [apply play_video_library || apply play_video_playlists | reflexivity]);
    try (unfold stop_video, pause_video, continue_video, show_playing,
           create_playlist, add_to_playlist, remove_from_playlist,
           clear_playlist, delete_playlist, allow_video, show_playlist,
           show_all_playlists;
         repeat case_match; simpl; congruence).
Qed.

(** X4.  A call writes only to its own part of the state: the library is
    written by the flag and allow calls only, the playlists by the five
    playlist calls only, the playing video and the paused flag by the play,
    stop, pause, continue, search and flag calls only.  The calls that only
    print leave the state as it is. *)
Theorem call_writes self c :
  (writes_library c = false ->
   _video_library (fst (call self c)) = _video_library self) /\
  (writes_playlists c = false ->
   _playlists (fst (call self c)) = _playlists self) /\
  (writes_playback c = false ->
   _playing_video (fst (call self c)) = _playing_video self /\
   _is_video_paused (fst (call self c)) = _is_video_paused self) /\
  (writes_library c = false -> writes_playlists c = false ->
   writes_playback c = false -> fst (call self c) = self).
Proof.
  assert (Hpb : writes_playback c = false ->
            _playing_video (fst (call self c)) = _playing_video self /\
            _is_video_paused (fst (call self c)) = _is_video_paused self).
  { destruct c; simpl; try discriminate; intros _; split; try reflexivity;
      unfold show_playing, create_playlist, add_to_playlist,
        remove_from_playlist, clear_playlist, delete_playlist, allow_video,
        show_playlist, show_all_playlists;
      repeat case_match; simpl; congruence. }
  split; [apply call_library_unwritten|].
  split; [apply call_playlists_unwritten|].
  split; [exact Hpb|]. intros W1 W2 W3.
  pose proof (call_library_unwritten self c W1) as H1.
  pose proof (call_playlists_unwritten self c W2) as H2.
  destruct (Hpb W3) as [H3 H4].
  destruct (fst (call self c)), self. simpl in *. congruence.
Qed.

Lemma call_writes_witness :
  _playlists (fst (call (run (init demo_library) [CCreatePlaylist "Mine"])
                        (CFlag "v1" "dull")))
  = _playlists (run (init demo_library) [CCreatePlaylist "Mine"]).
Proof.
  apply (call_writes (run (init demo_library) [CCreatePlaylist "Mine"])
           (CFlag "v1" "dull")).
  reflexivity.
Defined.

(** ** What the library keeps *)

Lemma set_flag_reason_static lib id r :
  map static_part (set_flag_reason lib id r) = map static_part lib.
Proof.
  induction lib as [|w lib IH]; simpl; [reflexivity|].
  destruct (String.eqb (video_id w) id); simpl; [reflexivity | now rewrite IH].
Qed.

Lemma has_video_set_flag lib id r p :
  has_video (set_flag_reason lib id r) p = has_video lib p.
Proof.
  unfold has_video. rewrite get_video_set_flag.
  destruct (String.eqb p id); [|reflexivity]. now destruct (get_video lib p).
Qed.

(** Every call leaves the library as it is or sets one flag. *)
Lemma call_library self c :
  _video_library (fst (call self c)) = _video_library self \/
  exists id r,
    _video_library (fst (call self c)) = set_flag_reason (_video_library self) id r.
Proof.
  destruct (writes_library c) eqn:W.
  - destruct c; try discriminate; simpl.
    + destruct (flag_video_library self id reason) as [H | H]; eauto.
    + destruct (flag_video_library self id "") as [H | H]; eauto.
    + destruct (allow_video_library self id) as [H | H]; eauto.
  - left. now apply call_library_unwritten.
Qed.

Lemma call_static self c :
  map static_part (_video_library (fst (call self c)))
  = map static_part (_video_library self).
Proof.
  destruct (call_library self c) as [-> | [id [r ->]]];
    [reflexivity | apply set_flag_reason_static].
Qed.

Lemma run_static cs : forall self,
  map static_part (_video_library (run self cs))
  = map static_part (_video_library self).
Proof.
  induction cs as [|c cs IH]; intros self; [reflexivity|].
  change (run self (c :: cs)) with (run (fst (call self c)) cs).
  rewrite IH. apply call_static.
Qed.

(** X3.  Whatever is called, the library keeps its videos: the same
    titles, ids and tags in the same order as when the player was made.
    Only flags change, so [number_of_videos] always prints the number of
    videos the library was loaded with. *)
Theorem library_keeps_videos lib cs :
  map static_part (_video_library (run (init lib) cs)) = map static_part lib /\
  number_of_videos (run (init lib) cs)
    = (run (init lib) cs,
       [Str.of_nat (length lib) +:+ " videos in the library"]).
Proof.
  pose proof (run_static cs (init lib)) as H. simpl in H. split; [exact H|].
  unfold number_of_videos, get_all_videos.
  now rewrite <- (length_map static_part), H, length_map.
Qed.

(** ** What the playlists keep *)

Lemma playlist_ok_set_flag lib id r k pl :
  playlist_ok lib k pl -> playlist_ok (set_flag_reason lib id r) k pl.
Proof.
  intros [H1 [H2 H3]]. repeat split; try assumption.
  intros p Hp. rewrite has_video_set_flag. now apply H3.
Qed.

Lemma not_playlist_has pl id : playlist_has pl id = false -> ~ In id (_videos pl).
Proof.
  unfold playlist_has. intros H Hin.
  assert (existsb (String.eqb id) (_videos pl) = true) as E.
  { apply existsb_exists. exists id. split; [exact Hin | apply String.eqb_refl]. }
  congruence.
Qed.

Lemma playlist_has_In pl id : playlist_has pl id = true -> In id (_videos pl).
Proof.
  unfold playlist_has. intros H. apply existsb_exists in H as [k [Hin E]].
  apply String.eqb_eq in E. now subst.
Qed.

Lemma playlists_ok_insert self k pl :
  playlists_ok self -> playlist_ok (_video_library self) k pl ->
  playlists_ok (set_playlists self (<[k := pl]> (_playlists self))).
Proof.
  intros Hok Hpl k' pl'. simpl. rewrite lookup_insert_Some.
  intros [[<- <-] | [_ H]]; [exact Hpl | now apply Hok].
Qed.

(** Every call keeps the playlists well formed. *)
Lemma call_keeps_playlists self c :
  playlists_ok self -> playlists_ok (fst (call self c)).
Proof.
  intros Hok. destruct (writes_playlists c) eqn:W.
  - destruct c; try discriminate; simpl.
    + unfold create_playlist. case_match; [exact Hok|].
      apply playlists_ok_insert; [exact Hok|].
      repeat split; [constructor | intros id []].
    + unfold add_to_playlist.
      destruct (_playlists self !! Str.upper playlist_name) as [pl|] eqn:E;
        [|exact Hok].
      destruct (get_video (_video_library self) id) as [v|] eqn:Hv; [|exact Hok].
      destruct (flag_reason v); [exact Hok|].
      pose proof (get_video_id _ _ _ Hv) as Hid. rewrite Hid.
      destruct (playlist_has pl id) eqn:Hhas; [exact Hok|].
      apply playlists_ok_insert; [exact Hok|].
      destruct (Hok _ _ E) as [H1 [H2 H3]].
      unfold playlist_set. rewrite Hhas. repeat split; simpl.
      * exact H1.
      * apply List.NoDup_app; [exact H2 | repeat constructor; intros [] |].
        intros x Hx [<- | []]. now apply (not_playlist_has pl id).
      * intros x Hx. apply in_app_or in Hx as [Hx | [<- | []]]; [now apply H3|].
        unfold has_video. now rewrite Hv.
    + unfold remove_from_playlist.
      destruct (_playlists self !! Str.upper playlist_name) as [pl|] eqn:E;
        [|exact Hok].
      repeat case_match; try exact Hok.
      apply playlists_ok_insert; [exact Hok|].
      destruct (Hok _ _ E) as [H1 [H2 H3]].
      unfold playlist_del. repeat split; simpl.
      * exact H1.
      * now apply List.NoDup_filter.
      * intros x Hx. apply filter_In in Hx as [Hx _]. now apply H3.
    + unfold clear_playlist.
      destruct (_playlists self !! Str.upper playlist_name) as [pl|] eqn:E;
        [|exact Hok].
      apply playlists_ok_insert; [exact Hok|].
      destruct (Hok _ _ E) as [H1 _].
      repeat split; [exact H1 | constructor | intros id []].
    + unfold delete_playlist. case_match; [|exact Hok].
      intros k pl. simpl. rewrite lookup_delete_Some. intros [_ Hl]. now apply Hok.
  - intros k pl Hk.
    rewrite (call_playlists_unwritten self c W) in Hk.
    destruct (call_library self c) as [-> | [id [r ->]]];
      [now apply Hok | apply playlist_ok_set_flag; now apply Hok].
Qed.

Lemma run_keeps_playlists cs : forall self,
  playlists_ok self -> playlists_ok (run self cs).
Proof.
  induction cs as [|c cs IH]; intros self Hok; [exact Hok|].
  apply IH. now apply call_keeps_playlists.
Qed.

Lemma init_playlists_ok lib : playlists_ok (init lib).
Proof. intros k pl. simpl. rewrite lookup_empty. discriminate. Qed.

(** X1.  After any sequence of calls, a playlist holds no id twice, and
    every id it holds is the id of a video of the library. *)
Theorem playlist_ids_distinct_and_known lib cs k pl :
  _playlists (run (init lib) cs) !! k = Some pl ->
  List.NoDup (_videos pl) /\
  forall id, In id (_videos pl) ->
    exists v, get_video (_video_library (run (init lib) cs)) id = Some v
              /\ video_id v = id.
Proof.
  intros Hk.
  destruct (run_keeps_playlists cs (init lib) (init_playlists_ok lib) k pl Hk)
    as [_ [H2 H3]].
  split; [exact H2|]. intros id Hin. specialize (H3 id Hin).
  unfold has_video in H3.
  destruct (get_video _ id) as [v|] eqn:E; [|discriminate].
  exists v. split; [reflexivity | now apply get_video_id in E].
Qed.

Lemma playlist_ids_distinct_and_known_witness :
  List.NoDup ["v3"; "v1"].
Proof.
  apply (playlist_ids_distinct_and_known demo_library
           [CCreatePlaylist "Mine"; CAddToPlaylist "mine" "v3";
            CAddToPlaylist "MINE" "v3"; CAddToPlaylist "Mine" "v1";
            CFlag "v1" "dull"]
           "MINE" (mkPlaylist "Mine" ["v3"; "v1"])).
  reflexivity.
Defined.



(** ** Pausing, continuing and stopping *)

(** X5.  With a video playing and not paused: [continue_video] refuses,
    [pause_video] sets the paused flag and nothing else, a second
    [pause_video] refuses and changes nothing, and [continue_video] after the
    pause gives back the state before the pause. *)
Theorem pause_then_continue self id :
  _playing_video self = Some id ->
  _is_video_paused self = false ->
  let paused := fst (pause_video self) in
  continue_video self = (self, ["Cannot continue video: Video is not paused"]) /\
  pause_video self =
    (set_paused self true,
     ["Pausing video: " +:+ title_of (_video_library self) id]) /\
  pause_video paused =
    (paused, ["Video already paused: " +:+ title_of (_video_library self) id]) /\
  continue_video paused =
    (self, ["Continuing video: " +:+ title_of (_video_library self) id]).
Proof.
  intros P Q. unfold pause_video, continue_video. rewrite P, Q. simpl.
  rewrite P. repeat split. destruct self. simpl in *. now subst.
Qed.

Lemma pause_then_continue_witness :
  let self := run (init demo_library) [CPlay "v1"] in
  continue_video (fst (pause_video self)) = (self, ["Continuing video: Amy"]).
Proof.
  intros self. apply (pause_then_continue self "v1"); reflexivity.
Defined.

(** X6.  [stop_video] with a video playing leaves no video playing and
    keeps the paused flag, the playlists and the library.  After it,
    [stop_video], [pause_video] and [continue_video] each print that no
    video is playing and change nothing, and so does [show_playing]. *)
Theorem stop_then_nothing_plays self id :
  _playing_video self = Some id ->
  let stopped := fst (stop_video self) in
  stop_video self =
    (set_playing self None,
     ["Stopping video: " +:+ title_of (_video_library self) id]) /\
  stop_video stopped
    = (stopped, ["Cannot stop video: No video is currently playing"]) /\
  pause_video stopped
    = (stopped, ["Cannot pause video: No video is currently playing"]) /\
  continue_video stopped
    = (stopped, ["Cannot continue video: No video is currently playing"]) /\
  show_playing stopped = (stopped, ["No video is currently playing"]).
Proof.
  intros P. unfold stop_video, pause_video, continue_video, show_playing.
  rewrite P. simpl. repeat split.
Qed.

Lemma stop_then_nothing_plays_witness :
  let self := run (init demo_library) [CPlay "v1"; CPause] in
  pause_video (fst (stop_video self))
  = (fst (stop_video self), ["Cannot pause video: No video is currently playing"]).
Proof.
  intros self. apply (stop_then_nothing_plays self "v1"). reflexivity.
Defined.

(** ** Flagged videos *)

(** X7.  A flagged video is neither played nor added to a playlist, and
    both refusals print the reason, or [Not supplied] for the empty reason.
    The refused [add_to_playlist] changes nothing; the refused [play_video]
    keeps the playing video but clears the paused flag. *)
Theorem flagged_video_refused self id v reason :
  get_video (_video_library self) id = Some v ->
  flag_reason v = Some reason ->
  play_video self id =
    (set_paused self false,
     ["Cannot play video: Video is currently flagged (reason: "
        +:+ Str.or_not_supplied reason +:+ ")"]) /\
  forall playlist_name pl,
    _playlists self !! Str.upper playlist_name = Some pl ->
    add_to_playlist self playlist_name id =
      (self,
       ["Cannot add video to " +:+ playlist_name
          +:+ ": Video is currently flagged (reason: "
          +:+ Str.or_not_supplied reason +:+ ")"]).
Proof.
  intros Hv Hf. split.
  - unfold play_video. simpl. now rewrite Hv, Hf.
  - intros n pl Hpl. unfold add_to_playlist. now rewrite Hpl, Hv, Hf.
Qed.

Lemma flagged_video_refused_witness :
  play_video (run (init demo_library) [CPlay "v1"; CPause]) "v2" =
  (set_paused (run (init demo_library) [CPlay "v1"; CPause]) false,
   ["Cannot play video: Video is currently flagged (reason: spoiler)"]).
Proof.
  apply (flagged_video_refused (run (init demo_library) [CPlay "v1"; CPause]) "v2"
           (mkVideo "Bob" "v2" ["#fun"; "#sad"] (Some "spoiler")) "spoiler");
    reflexivity.
Defined.

Lemma with_flag_same v : with_flag v (flag_reason v) = v.
Proof. now destruct v. Qed.

(** Setting a flag and taking it away gives the library back. *)
Lemma set_flag_reason_undo lib id v r :
  get_video lib id = Some v ->
  set_flag_reason (set_flag_reason lib id r) id (flag_reason v) = lib.
Proof.
  unfold get_video. induction lib as [|w lib IH]; simpl; [discriminate|].
  destruct (String.eqb (video_id w) id) eqn:E; simpl.
  - intros [= <-]. rewrite E. f_equal. apply with_flag_same.
  - intros H. rewrite E. f_equal. now apply IH.
Qed.

(** X8.  [allow_video] undoes [flag_video]: for an unflagged video of the
    library, flagging and then allowing it gives back the library as it was,
    and the whole state when that video was not the playing one.  When it
    was playing, the flag has stopped it and allowing does not start it
    again. *)
Theorem flag_then_allow self id v reason :
  get_video (_video_library self) id = Some v ->
  flag_reason v = None ->
  let flagged := fst (flag_video self id reason) in
  let allowed := allow_video flagged id in
  snd allowed = ["Successfully removed flag from video: " +:+ title v] /\
  _video_library (fst allowed) = _video_library self /\
  _playlists (fst allowed) = _playlists self /\
  _playing_video (fst allowed)
    = (if is_playing self v then None else _playing_video self) /\
  (is_playing self v = false -> fst allowed = self).
Proof.
  intros Hv Hf flagged allowed.
  destruct (flag_video_unflagged self id reason v Hv Hf) as [HL [HG [HP HQ]]].
  fold flagged in HL, HG, HP, HQ.
  pose proof (flag_video_paused self id reason) as HU. fold flagged in HU.
  assert (E : allowed =
    (set_library flagged (set_flag_reason (_video_library flagged) id None),
     ["Successfully removed flag from video: " +:+ title v])).
  { unfold allowed, allow_video. now rewrite HG. }
  assert (EL : set_flag_reason (_video_library flagged) id None = _video_library self).
  { rewrite HL, <- Hf. now apply set_flag_reason_undo. }
  rewrite E. simpl. rewrite EL. repeat split; try assumption.
  intros Hnp. rewrite Hnp in HQ.
  destruct self, flagged. simpl in *. now subst.
Qed.

Lemma flag_then_allow_witness :
  let self := run (init demo_library) [CPlay "v3"; CCreatePlaylist "Mine"] in
  fst (allow_video (fst (flag_video self "v1" "dull")) "v1") = self.
Proof.
  intros self.
  apply (flag_then_allow self "v1" (mkVideo "Amy" "v1" ["#fun"] None) "dull");
    reflexivity.
Defined.

(** X9.  [allow_video] on a flagged video clears the flag: a second
    [allow_video] then prints that the video is not flagged and changes
    nothing, [play_video] plays the video, and the search by title lists it
    when its title matches. *)
Theorem allow_video_clears_flag self id v reason :
  get_video (_video_library self) id = Some v ->
  flag_reason v = Some reason ->
  let allowed := fst (allow_video self id) in
  get_video (_video_library allowed) id = Some (with_flag v None) /\
  allow_video allowed id
    = (allowed, ["Cannot remove flag from video: Video is not flagged"]) /\
  _playing_video (fst (play_video allowed id)) = Some id /\
  (forall term,
     Str.ci_substring term (title v) ->
     In (with_flag v None) (matched_by_title (_video_library allowed) term)).
Proof.
  intros Hv Hf allowed.
  assert (HG : get_video (_video_library allowed) id = Some (with_flag v None)).
  { unfold allowed, allow_video. rewrite Hv, Hf. simpl.
    now apply get_video_set_flag_same. }
  split; [exact HG|]. split; [|split].
  - unfold allow_video at 1. now rewrite HG.
  - rewrite play_video_playing. now rewrite HG.
  - intros term Hsub. unfold matched_by_title, get_all_videos.
    apply filter_In. split; [now apply get_video_In in HG|].
    apply andb_true_iff. split; [|reflexivity].
    now apply StrFacts.contains_upper_spec.
Qed.

Lemma allow_video_clears_flag_witness :
  _playing_video
    (fst (play_video (fst (allow_video (init demo_library) "v2")) "v2"))
  = Some "v2".
Proof.
  apply (allow_video_clears_flag (init demo_library) "v2"
           (mkVideo "Bob" "v2" ["#fun"; "#sad"] (Some "spoiler")) "spoiler");
    reflexivity.
Defined.

(** ** Playing a random video *)

Lemma unflagged_videos_spec lib v :
  In v (unflagged_videos lib) <-> In v lib /\ flag_reason v = None.
Proof.
  unfold unflagged_videos, get_all_videos. rewrite filter_In.
  destruct (flag_reason v); split; intros [H1 H2]; split; congruence.
Qed.

Lemma nth_error_mod {A} (l : list A) (n : nat) :
  l <> [] -> exists x, nth_error l (n mod length l) = Some x.
Proof.
  intros Hne. destruct (nth_error l (n mod length l)) as [x|] eqn:E; [now exists x|].
  apply nth_error_None in E.
  assert (length l <> 0) by (destruct l; [congruence | discriminate]).
  pose proof (Nat.mod_upper_bound n (length l)). lia.
Qed.

(** X10.  [play_random_video] prints that no videos are available exactly
    when the library has no unflagged video, an empty library included; it
    then changes nothing, whatever is drawn. *)
Theorem play_random_video_none self :
  (unflagged_videos (_video_library self) = [] ->
   forall rnd, play_random_video self rnd = (self, ["No videos available"])) /\
  (unflagged_videos (_video_library self) <> [] ->
   forall rnd, snd (play_random_video self rnd) <> ["No videos available"]).
Proof.
  split.
  - intros E rnd. unfold play_random_video. rewrite E. simpl.
    now destruct rnd.
  - intros Hne rnd. unfold play_random_video.
    destruct (nth_error_mod _ rnd Hne) as [v ->].
    unfold play_video. simpl. repeat case_match; simpl; discriminate.
Qed.

Lemma play_random_video_none_witness :
  play_random_video (init [mkVideo "Bob" "v2" ["#sad"] (Some "")]) 7
  = (init [mkVideo "Bob" "v2" ["#sad"] (Some "")], ["No videos available"]).
Proof.
  apply (play_random_video_none (init [mkVideo "Bob" "v2" ["#sad"] (Some "")])).
  reflexivity.
Defined.

(** X11.  With unique ids and at least one unflagged video,
    [play_random_video] starts an unflagged video of the library, whatever
    is drawn, and leaves the player not paused; and every unflagged video is
    started by some draw. *)
Theorem play_random_video_plays self :
  List.NoDup (map video_id (_video_library self)) ->
  unflagged_videos (_video_library self) <> [] ->
  (forall rnd, exists v,
     In v (_video_library self) /\ flag_reason v = None /\
     _playing_video (fst (play_random_video self rnd)) = Some (video_id v) /\
     _is_video_paused (fst (play_random_video self rnd)) = false) /\
  (forall v, In v (_video_library self) -> flag_reason v = None ->
     exists rnd,
       _playing_video (fst (play_random_video self rnd)) = Some (video_id v)).
Proof.
  intros Hnd Hne.
  assert (Hplay : forall v, In v (_video_library self) -> flag_reason v = None ->
            _playing_video (fst (play_video self (video_id v))) = Some (video_id v) /\
            _is_video_paused (fst (play_video self (video_id v))) = false).
  { intros v Hin Hf. pose proof (get_video_unique _ _ Hnd Hin) as Hg.
    split; [rewrite play_video_playing, Hg; unfold is_unflagged; now rewrite Hf|].
    unfold play_video. simpl. rewrite Hg, Hf. now destruct (_playing_video self). }
  split.
  - intros rnd. destruct (nth_error_mod _ rnd Hne) as [v Hv].
    assert (Hin : In v (unflagged_videos (_video_library self)))
      by (eapply nth_error_In; exact Hv).
    apply unflagged_videos_spec in Hin as [Hin Hf].
    exists v. unfold play_random_video. rewrite Hv.
    destruct (Hplay v Hin Hf). now repeat split.
  - intros v Hin Hf.
    assert (Hu : In v (unflagged_videos (_video_library self)))
      by (now apply unflagged_videos_spec).
    apply In_nth_error in Hu as [n Hn].
    assert (Hlt : n < length (unflagged_videos (_video_library self)))
      by (apply nth_error_Some; congruence).
    exists n. unfold play_random_video. rewrite Nat.mod_small, Hn by exact Hlt.
    now apply Hplay.
Qed.

Lemma play_random_video_plays_witness :
  exists rnd,
    _playing_video (fst (play_random_video (init demo_library) rnd)) = Some "v3".
Proof.
  destruct (play_random_video_plays (init demo_library)) as [_ H].
  - simpl. repeat constructor; simpl; intuition discriminate.
  - discriminate.
  - apply (H (mkVideo "Cat" "v3" [] None)); simpl; auto.
Defined.

(** ** More on playlists *)



(** X13.  For a playlist that exists and a video of the library:
    [remove_from_playlist] on a video that is not in the playlist prints so
    and changes nothing, and a video is never removed twice, the second
    call printing that the video is not in the playlist. *)
Theorem remove_from_playlist_absent self n id pl v :
  _playlists self !! Str.upper n = Some pl ->
  get_video (_video_library self) id = Some v ->
  let removed := fst (remove_from_playlist self n id) in
  (playlist_has pl id = false ->
   remove_from_playlist self n id =
     (self, ["Cannot remove video from " +:+ n +:+ ": Video is not in playlist"])) /\
  remove_from_playlist removed n id =
    (removed, ["Cannot remove video from " +:+ n +:+ ": Video is not in playlist"]).
Proof.
  intros Hpl Hv removed.
  assert (H1 : playlist_has pl id = false ->
    remove_from_playlist self n id =
      (self, ["Cannot remove video from " +:+ n +:+ ": Video is not in playlist"])).
  { intros Hhas. unfold remove_from_playlist, has_video.
    now rewrite Hpl, Hv, Hhas. }
  split; [exact H1|].
  destruct (playlist_has pl id) eqn:Hhas.
  - assert (Hr : removed = set_playlists self
              (<[Str.upper n := playlist_del pl id]> (_playlists self))).
    { unfold removed, remove_from_playlist, has_video.
      now rewrite Hpl, Hv, Hhas. }
    unfold remove_from_playlist, has_video. rewrite Hr. simpl.
    now rewrite lookup_insert_eq, Hv, playlist_has_del.
  - unfold removed. rewrite (H1 eq_refl). simpl. now apply H1.
Qed.

Lemma remove_from_playlist_absent_witness :
  let self := run (init demo_library)
                [CCreatePlaylist "Mine"; CAddToPlaylist "mine" "v1"] in
  remove_from_playlist (fst (remove_from_playlist self "Mine" "v1")) "Mine" "v1"
  = (fst (remove_from_playlist self "Mine" "v1"),
     ["Cannot remove video from Mine: Video is not in playlist"]).
Proof.
  intros self.
  apply (remove_from_playlist_absent self "Mine" "v1" (mkPlaylist "Mine" ["v1"])
           (mkVideo "Amy" "v1" ["#fun"] None)); reflexivity.
Defined.

(** X14.  Without a playlist of the given name, [show_playlist],
    [add_to_playlist], [remove_from_playlist], [clear_playlist] and
    [delete_playlist] each print that the playlist does not exist and change
    nothing, whatever the video id. *)
Theorem missing_playlist_rejected self n :
  _playlists self !! Str.upper n = None ->
  show_playlist self n =
    (self, ["Cannot show playlist " +:+ n +:+ ": Playlist does not exist"]) /\
  (forall id, add_to_playlist self n id =
    (self, ["Cannot add video to " +:+ n +:+ ": Playlist does not exist"])) /\
  (forall id, remove_from_playlist self n id =
    (self, ["Cannot remove video from " +:+ n +:+ ": Playlist does not exist"])) /\
  clear_playlist self n =
    (self, ["Cannot clear playlist " +:+ n +:+ ": Playlist does not exist"]) /\
  delete_playlist self n =
    (self, ["Cannot delete playlist " +:+ n +:+ ": Playlist does not exist"]).
Proof.
  intros H. unfold show_playlist, add_to_playlist, remove_from_playlist,
    clear_playlist, delete_playlist. rewrite H. repeat split.
Qed.

Lemma missing_playlist_rejected_witness :
  delete_playlist (init demo_library) "Mine"
  = (init demo_library, ["Cannot delete playlist Mine: Playlist does not exist"]).
Proof.
  apply (missing_playlist_rejected (init demo_library) "Mine"). reflexivity.
Defined.

(** X15.  [clear_playlist] empties a playlist and keeps it: the playlist
    is still there under its name, with no video, [show_playlist] prints
    that there are no videos yet, and a video that was in it can be added
    again. *)
Theorem clear_playlist_empties self n pl :
  _playlists self !! Str.upper n = Some pl ->
  let cleared := fst (clear_playlist self n) in
  snd (clear_playlist self n) = ["Successfully removed all videos from " +:+ n] /\
  _playlists cleared !! Str.upper n = Some (mkPlaylist (name pl) []) /\
  show_playlist cleared n
    = (cleared, ["Showing playlist: " +:+ n; "No videos here yet"]) /\
  (forall id v,
     get_video (_video_library self) id = Some v -> flag_reason v = None ->
     snd (add_to_playlist cleared n id)
       = ["Added video to " +:+ n +:+ ": " +:+ title v]).
Proof.
  intros Hpl cleared.
  assert (Hc : clear_playlist self n =
    (set_playlists self (<[Str.upper n := playlist_clear pl]> (_playlists self)),
     ["Successfully removed all videos from " +:+ n])).
  { unfold clear_playlist. now rewrite Hpl. }
  assert (Hl : _playlists cleared !! Str.upper n = Some (mkPlaylist (name pl) [])).
  { unfold cleared. rewrite Hc. simpl. now rewrite lookup_insert_eq. }
  rewrite Hc at 1. repeat split.
  - exact Hl.
  - unfold show_playlist. now rewrite Hl.
  - intros id v Hv Hf. unfold add_to_playlist. rewrite Hl.
    assert (Hv' : get_video (_video_library cleared) id = Some v)
      by (unfold cleared; now rewrite Hc).
    now rewrite Hv', Hf.
Qed.

Lemma clear_playlist_empties_witness :
  let self := run (init demo_library)
                [CCreatePlaylist "Mine"; CAddToPlaylist "mine" "v1"] in
  show_playlist (fst (clear_playlist self "MINE")) "MINE"
  = (fst (clear_playlist self "MINE"),
     ["Showing playlist: MINE"; "No videos here yet"]).
Proof.
  intros self.
  apply (clear_playlist_empties self "MINE" (mkPlaylist "Mine" ["v1"])).
  reflexivity.
Defined.





(** X18.  A playlist call touches the one playlist it names: under every
    other key the playlists are as before, for [create_playlist],
    [add_to_playlist], [remove_from_playlist], [clear_playlist] and
    [delete_playlist]. *)
Theorem other_playlists_untouched self n k :
  k <> Str.upper n ->
  _playlists (fst (create_playlist self n)) !! k = _playlists self !! k /\
  (forall id,
     _playlists (fst (add_to_playlist self n id)) !! k = _playlists self !! k) /\
  (forall id,
     _playlists (fst (remove_from_playlist self n id)) !! k = _playlists self !! k) /\
  _playlists (fst (clear_playlist self n)) !! k = _playlists self !! k /\
  _playlists (fst (delete_playlist self n)) !! k = _playlists self !! k.
Proof.
  intros Hk.
  unfold create_playlist, add_to_playlist, remove_from_playlist, clear_playlist,
    delete_playlist.
  repeat split; intros; repeat case_match; simpl; try reflexivity;
    try (now apply lookup_insert_ne); now apply lookup_delete_ne.
Qed.

Lemma other_playlists_untouched_witness :
  let self := run (init demo_library)
                [CCreatePlaylist "Mine"; CCreatePlaylist "Yours"] in
  _playlists (fst (delete_playlist self "mine")) !! "YOURS"
  = _playlists self !! "YOURS".
Proof.
  intros self. apply (other_playlists_untouched self "mine" "YOURS"). discriminate.
Defined.

(** ** More on searching *)

Lemma contains_empty (s : string) : Str.contains "" s = true.
Proof. now destruct s. Qed.

(** X19.  The empty search term and the empty tag match everything: both
    searches then list all the videos that are not flagged, those without a
    tag included. *)
Theorem search_for_empty_string lib :
  matched_by_title lib "" = unflagged_videos lib /\
  matched_by_tag lib "" = unflagged_videos lib.
Proof.
  unfold matched_by_title, matched_by_tag, unflagged_videos.
  split; apply filter_ext; intros v; simpl Str.upper;
    now rewrite contains_empty.
Qed.



(** The range test of [display_matched_videos] is [picked]. *)
Lemma display_matched_videos_picked self videos answer :
  display_matched_videos self videos answer =
  match picked answer (length videos) with
  | Some i =>
      match nth_error videos i with
      | Some w =>
          (fst (play_video self (video_id w)),
           (numbered_lines 0 videos ++ search_prompt)
             ++ snd (play_video self (video_id w)))
      | None => (self, numbered_lines 0 videos ++ search_prompt)
      end
  | None => (self, numbered_lines 0 videos ++ search_prompt)
  end.
Proof.
  unfold display_matched_videos, picked, search_prompt.
  destruct answer as [number|]; [|reflexivity].
  replace (number <? Z.of_nat (length videos) + 1)%Z
    with (number <=? Z.of_nat (length videos))%Z
    by (apply eq_true_iff_eq; rewrite Z.leb_le, Z.ltb_lt; lia).
  destruct (_ && _)%bool eqn:E; [|reflexivity].
  replace (Z.to_nat (number - 1)) with (Z.to_nat number - 1) by lia.
  destruct (nth_error videos _) as [w|]; [|reflexivity].
  now destruct (play_video self (video_id w)).
Qed.

(** X21.  An answer to the search prompt that is not a number, or not a
    number from 1 to the number of results, plays nothing: both searches
    leave the state as it is and print the results and the prompt. *)
Theorem search_answer_out_of_range self t answer :
  (picked answer (length (matched_by_title (_video_library self) t)) = None ->
   search_videos self t answer
     = (self, search_output t (matched_by_title (_video_library self) t))) /\
  (picked answer (length (matched_by_tag (_video_library self) t)) = None ->
   search_videos_tag self t answer
     = (self, search_output t (matched_by_tag (_video_library self) t))).
Proof.
  split; intros H.
  - unfold search_videos, search_output.
    destruct (matched_by_title (_video_library self) t) as [|w ws] eqn:M;
      [reflexivity|].
    now rewrite display_matched_videos_picked, H.
  - unfold search_videos_tag, search_output.
    destruct (matched_by_tag (_video_library self) t) as [|w ws] eqn:M;
      [reflexivity|].
    now rewrite display_matched_videos_picked, H.
Qed.

Lemma search_answer_out_of_range_witness :
  search_videos (init demo_library) "a" (Some 3%Z)
  = (init demo_library,
     search_output "a" [mkVideo "Amy" "v1" ["#fun"] None; mkVideo "Cat" "v3" [] None]).
Proof.
  apply (search_answer_out_of_range (init demo_library) "a" (Some 3%Z)).
  reflexivity.
Defined.

Lemma picked_lt answer n i : picked answer n = Some i -> i < n.
Proof.
  unfold picked. destruct answer as [number|]; [|discriminate].
  destruct (_ && _)%bool eqn:E; [|discriminate].
  apply andb_true_iff in E as [E1 E2]. apply Z.leb_le in E1, E2.
  intros [= <-]. lia.
Qed.

(** X22.  With unique ids, an answer from 1 to the number of results
    plays the result of that number: after either search the playing video
    is that result, an unflagged video, and the player is not paused. *)
Theorem search_answer_plays self t answer i :
  List.NoDup (map video_id (_video_library self)) ->
  (picked answer (length (matched_by_title (_video_library self) t)) = Some i ->
   exists w,
     nth_error (matched_by_title (_video_library self) t) i = Some w /\
     flag_reason w = None /\
     _playing_video (fst (search_videos self t answer)) = Some (video_id w) /\
     _is_video_paused (fst (search_videos self t answer)) = false) /\
  (picked answer (length (matched_by_tag (_video_library self) t)) = Some i ->
   exists w,
     nth_error (matched_by_tag (_video_library self) t) i = Some w /\
     flag_reason w = None /\
     _playing_video (fst (search_videos_tag self t answer)) = Some (video_id w) /\
     _is_video_paused (fst (search_videos_tag self t answer)) = false).
Proof.
  intros Hnd.
  assert (Hplay : forall v, In v (_video_library self) -> flag_reason v = None ->
            _playing_video (fst (play_video self (video_id v))) = Some (video_id v) /\
            _is_video_paused (fst (play_video self (video_id v))) = false).
  { intros v Hin Hf. pose proof (get_video_unique _ _ Hnd Hin) as Hg.
    split; [rewrite play_video_playing, Hg; unfold is_unflagged; now rewrite Hf|].
    unfold play_video. simpl. rewrite Hg, Hf. now destruct (_playing_video self). }
  split; intros Hp; pose proof (picked_lt _ _ _ Hp) as Hlt.
  - destruct (nth_error (matched_by_title (_video_library self) t) i) as [w|] eqn:Hw;
      [|apply nth_error_None in Hw; lia].
    assert (Hin : In w (matched_by_title (_video_library self) t))
      by (eapply nth_error_In; exact Hw).
    pose proof (matched_by_title_unflagged _ _ _ Hin) as Hf.
    unfold matched_by_title in Hin. apply filter_In in Hin as [Hin _].
    exists w. split; [reflexivity|]. split; [exact Hf|].
    unfold search_videos.
    destruct (matched_by_title (_video_library self) t) as [|x xs] eqn:M;
      [destruct i; discriminate|].
    rewrite display_matched_videos_picked, Hp, Hw. simpl. now apply Hplay.
  - destruct (nth_error (matched_by_tag (_video_library self) t) i) as [w|] eqn:Hw;
      [|apply nth_error_None in Hw; lia].
    assert (Hin : In w (matched_by_tag (_video_library self) t))
      by (eapply nth_error_In; exact Hw).
    pose proof (matched_by_tag_unflagged _ _ _ Hin) as Hf.
    unfold matched_by_tag in Hin. apply filter_In in Hin as [Hin _].
    exists w. split; [reflexivity|]. split; [exact Hf|].
    unfold search_videos_tag.
    destruct (matched_by_tag (_video_library self) t) as [|x xs] eqn:M;
      [destruct i; discriminate|].
    rewrite display_matched_videos_picked, Hp, Hw. simpl. now apply Hplay.
Qed.

Lemma search_answer_plays_witness :
  exists w,
    nth_error (matched_by_title demo_library "a") 1 = Some w /\
    flag_reason w = None /\
    _playing_video (fst (search_videos (init demo_library) "a" (Some 2%Z)))
      = Some (video_id w) /\
    _is_video_paused (fst (search_videos (init demo_library) "a" (Some 2%Z))) = false.
Proof.
  apply (search_answer_plays (init demo_library) "a" (Some 2%Z) 1).
  - simpl. repeat constructor; simpl; intuition discriminate.
  - reflexivity.
Defined.

(** ** Listings *)

Section SortedFacts.
Context {A : Type} (key : A -> string).

Lemma insert_sorted_perm (x : A) (l : list A) :
  Permutation (insert_sorted key x l) (x :: l).
Proof.
  induction l as [|y l IH]; simpl; [reflexivity|].
  destruct (String.leb (key x) (key y)); [reflexivity|].
  rewrite IH. apply perm_swap.
Qed.

Lemma insert_sorted_hd (x y : A) (l : list A) :
  key_le key y x -> HdRel (key_le key) y l ->
  HdRel (key_le key) y (insert_sorted key x l).
Proof.
  intros Hyx Hhd. destruct l as [|z l]; simpl; [now constructor|].
  destruct (String.leb (key x) (key z)); constructor; [exact Hyx|].
  now inversion Hhd.
Qed.

Lemma insert_sorted_keeps (x : A) (l : list A) :
  Sorted (key_le key) l -> Sorted (key_le key) (insert_sorted key x l).
Proof.
  induction 1 as [|y l Hs IH Hhd]; simpl; [repeat constructor|].
  destruct (String.leb (key x) (key y)) eqn:E.
  - constructor; [now constructor | now constructor].
  - constructor; [exact IH|]. apply insert_sorted_hd; [|exact Hhd].
    unfold key_le. destruct (String.leb_total (key x) (key y)); congruence.
Qed.

Lemma sorted_perm (l : list A) : Permutation (sorted key l) l.
Proof.
  induction l as [|x l IH]; simpl; [reflexivity|].
  rewrite insert_sorted_perm. now constructor.
Qed.

Lemma sorted_ordered (l : list A) : Sorted (key_le key) (sorted key l).
Proof.
  induction l as [|x l IH]; simpl; [constructor | now apply insert_sorted_keeps].
Qed.

End SortedFacts.

(** X23.  [show_all_videos] prints, after its heading, one line for every
    video of the library, flagged or not, in the order of the titles; the
    line of a flagged video ends with the reason. *)
Theorem show_all_videos_in_title_order self :
  exists videos,
    show_all_videos self =
      (self,
       "Here's a list of all available videos:"
         :: map (fun video => video_line video +:+ " " +:+ flag_msg video) videos) /\
    Permutation videos (_video_library self) /\
    Sorted (key_le title) videos /\
    length (snd (show_all_videos self)) = S (length (_video_library self)).
Proof.
  exists (sorted title (_video_library self)).
  split; [reflexivity|]. split; [apply sorted_perm|]. split; [apply sorted_ordered|].
  unfold show_all_videos, get_all_videos. simpl.
  now rewrite length_map, (Permutation_length (sorted_perm title _)).
Qed.

(** X24.  After any sequence of calls, [show_playing] prints one line and
    changes nothing: that no video is playing, or the title, id and tags of
    the playing video, which the library always has, followed by [- PAUSED]
    when the player is paused. *)
Theorem show_playing_line lib cs :
  let self := run (init lib) cs in
  (_playing_video self = None ->
   show_playing self = (self, ["No video is currently playing"])) /\
  (forall id, _playing_video self = Some id ->
   exists video,
     get_video (_video_library self) id = Some video /\
     video_id video = id /\
     show_playing self =
       (self,
        ["Currently playing: " +:+ video_line video +:+ " "
           +:+ (if _is_video_paused self then "- PAUSED" else "")])).
Proof.
  intros self. split.
  - intros P. unfold show_playing. now rewrite P.
  - intros id P.
    destruct (run_keeps cs (init lib) (init_playing_unflagged lib) id P)
      as [v [Hv _]].
    fold self in Hv. exists v. split; [exact Hv|].
    split; [now apply get_video_id in Hv|].
    unfold show_playing. now rewrite P, Hv.
Qed.

Lemma show_playing_line_witness :
  exists video,
    get_video demo_library "v1" = Some video /\
    video_id video = "v1" /\
    show_playing (run (init demo_library) [CPlay "v1"; CPause]) =
      (run (init demo_library) [CPlay "v1"; CPause],
       ["Currently playing: " +:+ video_line video +:+ " " +:+ "- PAUSED"]).
Proof.
  apply (show_playing_line demo_library [CPlay "v1"; CPause]). reflexivity.
Defined.

(** The videos behind the ids of a playlist, when the library has them
    all: one video for each id, in the same order. *)
Lemma playlist_videos_ids lib pl :
  (forall id, In id (_videos pl) -> has_video lib id = true) ->
  map video_id (playlist_videos lib pl) = _videos pl /\
  forall v, In v (playlist_videos lib pl) -> get_video lib (video_id v) = Some v.
Proof.
  unfold playlist_videos. induction (_videos pl) as [|id l IH]; intros H; simpl.
  - split; [reflexivity | intros v []].
  - assert (Hid : has_video lib id = true) by (apply H; now left).
    unfold has_video in Hid.
    destruct (get_video lib id) as [v|] eqn:E; [|discriminate].
    destruct IH as [IH1 IH2]; [intros x Hx; apply H; now right|].
    pose proof (get_video_id _ _ _ E) as Hv. simpl. split.
    + rewrite Hv. f_equal. exact IH1.
    + intros w [<- | Hw]; [now rewrite Hv | apply IH2; exact Hw].
Qed.

(** X25.  After any sequence of calls, [show_playlist] on a playlist that
    exists prints, after its heading, that there are no videos yet, or one
    line for each id of the playlist, in the order the videos were added; a
    video flagged since it was added is still listed, with the reason. *)
Theorem show_playlist_lines lib cs n pl :
  let self := run (init lib) cs in
  _playlists self !! Str.upper n = Some pl ->
  exists videos,
    map video_id videos = _videos pl /\
    (forall v, In v videos -> get_video (_video_library self) (video_id v) = Some v) /\
    show_playlist self n =
      (self,
       ("Showing playlist: " +:+ n)
         :: match videos with
            | [] => ["No videos here yet"]
            | _ :: _ =>
                map (fun video => "  " +:+ video_line video +:+ " " +:+ flag_msg video)
                    videos
            end).
Proof.
  intros self Hpl.
  destruct (run_keeps_playlists cs (init lib) (init_playlists_ok lib) _ _ Hpl)
    as [_ [_ H3]].
  fold self in H3.
  destruct (playlist_videos_ids (_video_library self) pl H3) as [H1 H2].
  exists (playlist_videos (_video_library self) pl).
  split; [exact H1|]. split; [exact H2|].
  unfold show_playlist. now rewrite Hpl.
Qed.

Lemma show_playlist_lines_witness :
  let self := run (init demo_library)
                [CCreatePlaylist "Mine"; CAddToPlaylist "mine" "v3";
                 CAddToPlaylist "mine" "v1"; CFlag "v3" ""] in
  exists videos,
    map video_id videos = ["v3"; "v1"] /\
    (forall v, In v videos -> get_video (_video_library self) (video_id v) = Some v) /\
    show_playlist self "MINE" =
      (self,
       "Showing playlist: MINE"
         :: match videos with
            | [] => ["No videos here yet"]
            | _ :: _ =>
                map (fun video => "  " +:+ video_line video +:+ " " +:+ flag_msg video)
                    videos
            end).
Proof.
  intros self.
  apply (show_playlist_lines demo_library
           [CCreatePlaylist "Mine"; CAddToPlaylist "mine" "v3";
            CAddToPlaylist "mine" "v1"; CFlag "v3" ""]
           "MINE" (mkPlaylist "Mine" ["v3"; "v1"])).
  reflexivity.
Defined.

(** X26.  After any sequence of calls, [show_all_playlists] prints that no
    playlists exist when there is none, and otherwise its heading and one
    line for every playlist, in the order of the names as they were given
    at creation, each with the number of ids in the playlist, [video]
    being in the singular for one. *)
Theorem show_all_playlists_lines lib cs :
  let self := run (init lib) cs in
  (_playlists self = ∅ ->
   show_all_playlists self = (self, ["No playlists exist yet"])) /\
  (_playlists self <> ∅ ->
   exists playlists,
     Permutation playlists (snd <$> map_to_list (_playlists self)) /\
     Sorted (key_le name) playlists /\
     length playlists = size (_playlists self) /\
     show_all_playlists self =
       (self,
        "Showing all playlists:"
          :: map (fun pl => playlist_line (name pl) (length (_videos pl)))
                 playlists)).
Proof.
  intros self. split.
  - intros E. unfold show_all_playlists. now rewrite E, map_to_list_empty.
  - intros Hne.
    exists (sorted name (snd <$> map_to_list (_playlists self))).
    split; [apply sorted_perm|]. split; [apply sorted_ordered|]. split.
    { now rewrite (Permutation_length (sorted_perm name _)), length_fmap,
        length_map_to_list. }
    unfold show_all_playlists.
    destruct (snd <$> map_to_list (_playlists self)) as [|p ps] eqn:E.
    { exfalso. apply Hne. apply map_to_list_empty_iff.
      now destruct (map_to_list (_playlists self)). }
    f_equal. f_equal. apply map_ext_in. intros pl Hin.
    apply (Permutation_in _ (sorted_perm name (p :: ps))) in Hin.
    rewrite <- E in Hin. apply list_elem_of_In in Hin.
    apply list_elem_of_fmap in Hin as [[k pl'] [-> Hk]].
    apply elem_of_map_to_list in Hk. simpl.
    destruct (run_keeps_playlists cs (init lib) (init_playlists_ok lib) _ _ Hk)
      as [_ [_ H3]].
    fold self in H3.
    destruct (playlist_videos_ids (_video_library self) pl' H3) as [H1 _].
    now rewrite <- (length_map video_id), H1.
Qed.

Lemma show_all_playlists_lines_witness :
  show_all_playlists (run (init demo_library) [CPlay "v1"; CFlag "v1" ""])
  = (run (init demo_library) [CPlay "v1"; CFlag "v1" ""], ["No playlists exist yet"]).
Proof.
  apply (show_all_playlists_lines demo_library [CPlay "v1"; CFlag "v1" ""]).
  reflexivity.
Defined.
